(** * FA 4.0 header generator: the field-resolution engine

    A shallow embedding of [tools/fa_header_generator.py] (class
    [FA40HeaderGenerator]), of the path functions of
    [tools/connector_generator.py] and of the Python built-ins they call,
    followed by the properties of the specification that concern them.

    Conventions of the embedding.
    - A Python [str] is a Rocq [string]; its characters are the code
      points 0..255.  On that range the regular-expression class [\d] is
      exactly [0-9].
    - A Python [int] is a [Z]; a Python [float] is an IEEE-754 binary64
      number, a [spec_float] with [prec = 53] and [emax = 1024].
    - A dict read from JSON or built by an extractor is an association
      list in insertion order; the assembled header, which is only read
      back by key, is a [gmap].
    - An exception is a value of [exn] carried by the [result] monad. *)

From Stdlib Require Import ZArith Bool Ascii String SpecFloat Lia.
From stdpp Require Import base option list strings gmap.

Set Warnings "-register-all".

Local Open Scope string_scope.

(** ** Exceptions *)

Inductive exn := KeyError | TypeError | AttributeError | ValueError.

Inductive result (A : Type) :=
  | Ok (a : A)
  | Raise (e : exn).
Arguments Ok {A} a.
Arguments Raise {A} e.

Definition rbind {A B} (r : result A) (k : A -> result B) : result B :=
  match r with
  | Ok a => k a
  | Raise e => Raise e
  end.

Notation "'let?' x ':=' r 'in' k" := (rbind r (fun x => k))
  (at level 10, x pattern, r at level 100, k at level 200).

(** ** Python values *)

Module Py.

Inductive key :=
  | KStr (s : string)
  | KInt (n : Z).

Inductive value :=
  | VNone
  | VBool (b : bool)
  | VInt (n : Z)
  | VFloat (f : spec_float)
  | VStr (s : string)
  | VTuple (l : list value)
  | VList (l : list value)
  | VDict (d : list (key * value)).

Definition key_eqb (a b : key) : bool :=
  match a, b with
  | KStr s, KStr t => String.eqb s t
  | KInt n, KInt m => Z.eqb n m
  | _, _ => false
  end.

(** [d.get(k)], and [k in d] as [is_Some (dict_get k d)]. *)
Fixpoint dict_get (k : key) (d : list (key * value)) : option value :=
  match d with
  | [] => None
  | (k', v) :: d' => if key_eqb k k' then Some v else dict_get k d'
  end.

Definition is_none (v : value) : bool :=
  match v with VNone => true | _ => false end.

(** [isinstance(v, (int, float))]; [bool] is a subclass of [int]. *)
Definition is_number (v : value) : bool :=
  match v with
  | VBool _ | VInt _ | VFloat _ => true
  | _ => false
  end.

(** *** Characters *)

Definition code (c : ascii) : N := N_of_ascii c.

Definition in_range (lo hi : N) (c : ascii) : bool :=
  (lo <=? code c)%N && (code c <=? hi)%N.

Definition is_digit (c : ascii) : bool := in_range 48 57 c.

Definition digit_val (c : ascii) : Z := Z.of_N (code c) - 48.

(** [str.isspace] on one character of the range 0..255; it is also the
    class [\s] of a [str] pattern. *)
Definition is_space (c : ascii) : bool :=
  in_range 9 13 c || in_range 28 32 c
  || (code c =? 133)%N || (code c =? 160)%N.

(** *** [str.split(sep)] and [str.split(sep, 1)] for a one-character
    separator *)

Fixpoint split_on (sep : ascii) (s : string) : list string :=
  match s with
  | EmptyString => [EmptyString]
  | String c s' =>
      if Ascii.eqb c sep then EmptyString :: split_on sep s'
      else match split_on sep s' with
           | [] => [String c EmptyString]
           | p :: ps => String c p :: ps
           end
  end.

Fixpoint split_once (sep : ascii) (s : string) : list string :=
  match s with
  | EmptyString => [EmptyString]
  | String c s' =>
      if Ascii.eqb c sep then [EmptyString; s']
      else match split_once sep s' with
           | p :: ps => String c p :: ps
           | [] => [String c EmptyString]
           end
  end.

(** [c in s] for a one-character [c]. *)
Fixpoint contains_char (c : ascii) (s : string) : bool :=
  match s with
  | EmptyString => false
  | String c' s' => Ascii.eqb c' c || contains_char c s'
  end.

(** *** [str(n)] for an [int] *)

Definition digit_char (d : Z) : ascii := ascii_of_N (Z.to_N (48 + d)).

(** Decimal digits of a non-negative integer; the first argument bounds the
    recursion and is at least the number printed. *)
Fixpoint digits_go (fuel : positive) (n : Z) : string :=
  match fuel with
  | xH => String (digit_char n) EmptyString
  | xO f | xI f =>
      if (n <? 10)%Z then String (digit_char n) EmptyString
      else digits_go f (n / 10) +:+ String (digit_char (n mod 10)) EmptyString
  end.

Definition str_of_nonneg (n : Z) : string := digits_go (Z.to_pos n) n.

Definition str_of_int (n : Z) : string :=
  if (n <? 0)%Z then "-" +:+ str_of_nonneg (- n) else str_of_nonneg n.

(** *** [float]: IEEE-754 binary64 *)

Module Float.
Local Open Scope Z_scope.

Definition prec := 53.
Definition emax := 1024.

Definition of_ratio (s : bool) (p q : Z) : spec_float :=
  if p =? 0 then S754_zero s
  else let '(mz, ez, lz) := SFdiv_core_binary prec emax p 0 q 0 in
       binary_round_aux prec emax s mz ez lz.

Definition of_Z (n : Z) : spec_float :=
  if n <? 0 then of_ratio true (- n) 1 else of_ratio false n 1.

Definition div := SFdiv prec emax.
Definition ltb := SFltb.

(** The exact value [m * 2^e] of a finite float as a fraction. *)
Definition ratio_of (m : positive) (e : Z) : Z * Z :=
  if 0 <=? e then (Z.pos m * 2 ^ e, 1) else (Z.pos m, 2 ^ (- e)).

(** Nearest integer to [p / q], ties to even. *)
Definition round_half_even (p q : Z) : Z :=
  let n := p / q in
  let r := p mod q in
  match 2 * r ?= q with
  | Lt => n
  | Gt => n + 1
  | Eq => if Z.even n then n else n + 1
  end.

(** [round(x, 2)] *)
Definition round2 (x : spec_float) : spec_float :=
  match x with
  | S754_finite s m e =>
      let '(p, q) := ratio_of m e in
      of_ratio s (round_half_even (p * 100) q) 100
  | _ => x
  end.

(** [10^(d-1) <= p/q < 10^d] *)
Fixpoint decpt_up (fuel : nat) (p q d : Z) : Z :=
  match fuel with
  | O => d
  | S f => if p <? q * 10 ^ d then d else decpt_up f p q (d + 1)
  end.

Fixpoint decpt_down (fuel : nat) (p q j : Z) : Z :=
  match fuel with
  | O => - j
  | S f => if q <=? p * 10 ^ (j + 1) then - j else decpt_down f p q (j + 1)
  end.

Definition decpt (p q : Z) : Z :=
  if q <=? p then decpt_up 400 p q 1 else decpt_down 400 p q 0.

(** The candidate with [k] digits: the decimal [c * 10^(d-k)] nearest to
    [p/q] among those that read back as [x]. *)
Definition candidate (x : spec_float) (p q d k : Z) : option Z :=
  let t := k - d in
  let '(num, den) := if 0 <=? t then (p * 10 ^ t, q) else (p, q * 10 ^ (- t)) in
  let lo := num / den in
  let r := num mod den in
  let back c :=
    let y := if 0 <=? t then of_ratio false c (10 ^ t)
             else of_ratio false (c * 10 ^ (- t)) 1 in
    SFeqb x y in
  if r =? 0 then Some lo
  else match back lo, back (lo + 1) with
       | true, true =>
           match 2 * r ?= den with
           | Lt => Some lo
           | Gt => Some (lo + 1)
           | Eq => Some (if Z.even lo then lo else lo + 1)
           end
       | true, false => Some lo
       | false, true => Some (lo + 1)
       | false, false => None
       end.

Definition nearest (p q d k : Z) : Z :=
  let t := k - d in
  if 0 <=? t then round_half_even (p * 10 ^ t) q
  else round_half_even p (q * 10 ^ (- t)).

Fixpoint shortest (fuel : nat) (x : spec_float) (p q d k : Z) : Z * Z :=
  match fuel with
  | O => (nearest p q d k, k)
  | S f =>
      match candidate x p q d k with
      | Some c => (c, k)
      | None => shortest f x p q d (k + 1)
      end
  end.

Fixpoint zeros (n : nat) : string :=
  match n with O => "" | S n' => String "0" (zeros n') end.

Definition substr_to (n : Z) (s : string) : string := substring 0 (Z.to_nat n) s.
Definition substr_from (n : Z) (s : string) : string :=
  substring (Z.to_nat n) (String.length s - Z.to_nat n) s.

Definition layout (digits : string) (d : Z) : string :=
  let k := Z.of_nat (String.length digits) in
  if (d <=? -4) || (16 <? d) then
    let e := d - 1 in
    let mant := match digits with
                | String c EmptyString => digits
                | String c rest => String c ("." +:+ rest)
                | EmptyString => digits
                end in
    let es := str_of_nonneg (Z.abs e) in
    mant +:+ "e" +:+ (if e <? 0 then "-" else "+")
         +:+ (if Z.abs e <? 10 then "0" else "") +:+ es
  else if d <=? 0 then "0." +:+ zeros (Z.to_nat (- d)) +:+ digits
  else if k <=? d then digits +:+ zeros (Z.to_nat (d - k)) +:+ ".0"
  else substr_to d digits +:+ "." +:+ substr_from d digits.

Definition repr (x : spec_float) : string :=
  match x with
  | S754_nan => "nan"
  | S754_infinity s => if s then "-inf" else "inf"
  | S754_zero s => if s then "-0.0" else "0.0"
  | S754_finite s m e =>
      let '(p, q) := ratio_of m e in
      let d := decpt p q in
      let '(c, k) := shortest 16 (S754_finite false m e) p q d 1 in
      (if s then "-" else "")
      +:+ (if c =? 10 ^ k then layout "1" (d + 1)
           else layout (str_of_nonneg c) d)
  end.
End Float.

(** *** Truth value, [str] methods *)

(** [bool(v)] *)
Definition truthy (v : value) : bool :=
  match v with
  | VNone => false
  | VBool b => b
  | VInt n => negb (n =? 0)%Z
  | VFloat (S754_zero _) => false
  | VFloat _ => true
  | VStr s => negb (String.eqb s "")
  | VTuple l | VList l => match l with [] => false | _ => true end
  | VDict d => match d with [] => false | _ => true end
  end.

Fixpoint str_filter (f : ascii -> bool) (s : string) : string :=
  match s with
  | EmptyString => EmptyString
  | String c s' => if f c then String c (str_filter f s') else str_filter f s'
  end.

Fixpoint str_map (f : ascii -> ascii) (s : string) : string :=
  match s with
  | EmptyString => EmptyString
  | String c s' => String (f c) (str_map f s')
  end.

Fixpoint lstrip (s : string) : string :=
  match s with
  | String c s' => if is_space c then lstrip s' else s
  | EmptyString => EmptyString
  end.

Fixpoint rstrip (s : string) : string :=
  match s with
  | EmptyString => EmptyString
  | String c s' =>
      match rstrip s' with
      | EmptyString => if is_space c then EmptyString else String c EmptyString
      | r => String c r
      end
  end.

(** [s.strip()] *)
Definition strip (s : string) : string := rstrip (lstrip s).

Definition lower_char (c : ascii) : ascii :=
  if in_range 65 90 c || (in_range 192 222 c && negb (code c =? 215)%N)
  then ascii_of_N (code c + 32)
  else c.

(** [s.lower()] *)
Definition lower (s : string) : string := str_map lower_char s.

Fixpoint join (sep : string) (l : list string) : string :=
  match l with
  | [] => ""
  | [x] => x
  | x :: l' => x +:+ sep +:+ join sep l'
  end.

(** *** [repr] and [str] *)

Definition hex_digit (n : N) : ascii :=
  if (n <? 10)%N then ascii_of_N (48 + n) else ascii_of_N (87 + n).

Definition printable (c : ascii) : bool :=
  in_range 32 126 c || (in_range 161 255 c && negb (code c =? 173)%N).

Definition dquote : ascii := ascii_of_N 34.

Definition repr_char (quote : ascii) (c : ascii) : string :=
  if Ascii.eqb c "\" then "\\"
  else if Ascii.eqb c quote then String "\" (String quote "")
  else if (code c =? 10)%N then "\n"
  else if (code c =? 13)%N then "\r"
  else if (code c =? 9)%N then "\t"
  else if printable c then String c ""
  else "\x" +:+ String (hex_digit (code c / 16)) (String (hex_digit (code c mod 16)) "").

Fixpoint str_concat_map (f : ascii -> string) (s : string) : string :=
  match s with
  | EmptyString => EmptyString
  | String c s' => f c +:+ str_concat_map f s'
  end.

Definition repr_str (s : string) : string :=
  let quote : ascii :=
    if contains_char "'" s && negb (contains_char dquote s) then dquote
    else "'"%char in
  String quote (str_concat_map (repr_char quote) s +:+ String quote "").

Definition repr_key (k : key) : string :=
  match k with
  | KStr s => repr_str s
  | KInt n => str_of_int n
  end.

Fixpoint repr (v : value) : string :=
  match v with
  | VNone => "None"
  | VBool b => if b then "True" else "False"
  | VInt n => str_of_int n
  | VFloat f => Float.repr f
  | VStr s => repr_str s
  | VTuple l =>
      match l with
      | [x] => "(" +:+ repr x +:+ ",)"
      | _ => "(" +:+ join ", " (List.map repr l) +:+ ")"
      end
  | VList l => "[" +:+ join ", " (List.map repr l) +:+ "]"
  | VDict d =>
      "{" +:+ join ", "
                (List.map (fun kv => repr_key (fst kv) +:+ ": " +:+ repr (snd kv)) d)
          +:+ "}"
  end.

(** [str(v)] *)
Definition str (v : value) : string :=
  match v with
  | VStr s => s
  | _ => repr v
  end.

(** *** The pattern [-?\d+\.?\d*], [int(text)] and [float(text)] *)

Fixpoint span_digits (s : string) : string * string :=
  match s with
  | String c s' =>
      if is_digit c then let '(d, r) := span_digits s' in (String c d, r)
      else (EmptyString, s)
  | EmptyString => (EmptyString, EmptyString)
  end.

(** The match of the pattern that starts at the head of [s], if any: the
    sign is taken when a digit follows it, then every digit, then a point
    when there is one, then every digit. *)
Definition starts_with_digit (s : string) : bool :=
  match s with
  | String c _ => is_digit c
  | EmptyString => false
  end.

Definition match_number_here (s : string) : option string :=
  let '(sign, s1) :=
    match s with
    | String c s' =>
        if Ascii.eqb c "-" && starts_with_digit s' then ("-", s') else ("", s)
    | EmptyString => ("", s)
    end in
  let '(ds, s2) := span_digits s1 in
  match ds with
  | EmptyString => None
  | _ =>
      let '(dot, s3) :=
        match s2 with
        | String c s' => if Ascii.eqb c "." then (".", s') else ("", s2)
        | EmptyString => ("", s2)
        end in
      Some (sign +:+ ds +:+ dot +:+ fst (span_digits s3))
  end.

(** [re.findall(r"-?\d+\.?\d*", s)[0]], when the list is not empty. *)
Fixpoint first_number (s : string) : option string :=
  match match_number_here s with
  | Some m => Some m
  | None =>
      match s with
      | EmptyString => None
      | String _ s' => first_number s'
      end
  end.

Fixpoint digits_value (acc : Z) (s : string) : Z :=
  match s with
  | EmptyString => acc
  | String c s' => digits_value (10 * acc + digit_val c) s'
  end.

(** [text] without its sign, and whether it had one. *)
Definition unsigned (text : string) : bool * string :=
  match text with
  | String c body => if Ascii.eqb c "-" then (true, body) else (false, text)
  | EmptyString => (false, text)
  end.

(** [int(text)] for a text of the shape [-?\d+]. *)
Definition int_of_text (text : string) : Z :=
  let '(neg, body) := unsigned text in
  if neg then - digits_value 0 body else digits_value 0 body.

(** [float(text)] for a text of the shape [-?\d+\.\d*]: the nearest
    binary64 number to the decimal. *)
Definition float_of_text (text : string) : spec_float :=
  let '(neg, body) := unsigned text in
  let '(ip, rest) := span_digits body in
  let fp :=
    match rest with
    | String c f => if Ascii.eqb c "." then f else ""
    | EmptyString => ""
    end in
  Float.of_ratio neg (digits_value 0 (ip +:+ fp))
                 (10 ^ Z.of_nat (String.length fp)).

(** *** [pathlib.Path] on a POSIX system *)

Definition path_parts (p : string) : list string :=
  List.filter (fun x => negb (String.eqb x "") && negb (String.eqb x "."))
              (split_on "/" p).

Definition path_root (p : string) : string :=
  match p with
  | String "/" (String "/" (String "/" _)) => "/"
  | String "/" (String "/" _) => "//"
  | String "/" _ => "/"
  | _ => ""
  end.

(** [Path(p).name] *)
Definition path_name (p : string) : string := List.last (path_parts p) "".

(** [str(Path(p).parent)] *)
Definition path_parent (p : string) : string :=
  match path_root p, List.removelast (path_parts p) with
  | EmptyString, [] => "."
  | root, parts => root +:+ join "/" parts
  end.

(** *** [datetime.strptime] and [datetime.isoformat] *)

Record datetime := mk_datetime {
  year : Z; month : Z; day : Z; hour : Z; minute : Z; second : Z
}.

Inductive token :=
  | Directive (d : ascii)
  | Whitespace
  | Literal (c : ascii).

(** The format as the library reads it: [%x] is a directive, a run of
    white space stands for [\s+], any other character for itself. *)
Fixpoint tokens (fmt : string) : list token :=
  match fmt with
  | EmptyString => []
  | String "%" (String d rest) => Directive d :: tokens rest
  | String c rest =>
      if is_space c then
        match tokens rest with
        | Whitespace :: ts => Whitespace :: ts
        | ts => Whitespace :: ts
        end
      else Literal c :: tokens rest
  end.

Definition one (c : ascii) : ascii -> bool := Ascii.eqb c.
Definition between (a b : ascii) : ascii -> bool := in_range (code a) (code b).

(** The alternatives of a directive, each a sequence of character
    classes, in the order the library's regular expression lists them. *)
Definition alternatives (d : ascii) : list (list (ascii -> bool)) :=
  if Ascii.eqb d "Y" then [[is_digit; is_digit; is_digit; is_digit]]
  else if Ascii.eqb d "m" then
    [[one "1"; between "0" "2"]; [one "0"; between "1" "9"]; [between "1" "9"]]
  else if Ascii.eqb d "d" then
    [[one "3"; between "0" "1"]; [between "1" "2"; is_digit];
     [one "0"; between "1" "9"]; [between "1" "9"]; [one " "; between "1" "9"]]
  else if Ascii.eqb d "H" then
    [[one "2"; between "0" "3"]; [between "0" "1"; is_digit]; [is_digit]]
  else if Ascii.eqb d "M" then [[between "0" "5"; is_digit]; [is_digit]]
  else if Ascii.eqb d "S" then
    [[one "6"; between "0" "1"]; [between "0" "5"; is_digit]; [is_digit]]
  else [].

Fixpoint match_classes (cs : list (ascii -> bool)) (s : string)
  : option (string * string) :=
  match cs with
  | [] => Some (EmptyString, s)
  | f :: cs' =>
      match s with
      | String c s' =>
          if f c then
            match match_classes cs' s' with
            | Some (m, r) => Some (String c m, r)
            | None => None
            end
          else None
      | EmptyString => None
      end
  end.

(** What is left of [s] after one or more white-space characters, the
    longest run first. *)
Fixpoint after_spaces (s : string) : list string :=
  match s with
  | String c s' => if is_space c then after_spaces s' ++ [s'] else []
  | EmptyString => []
  end.

(** Every way to match the format at the head of [s], in the order a
    backtracking matcher finds them, with the text of each directive.
    The pattern is compiled with IGNORECASE. *)
Fixpoint match_tokens (ts : list token) (s : string)
  : list (list (ascii * string) * string) :=
  match ts with
  | [] => [([], s)]
  | Literal c :: ts' =>
      match s with
      | String c' s' =>
          if Ascii.eqb (lower_char c') (lower_char c) then match_tokens ts' s'
          else []
      | EmptyString => []
      end
  | Whitespace :: ts' => List.flat_map (match_tokens ts') (after_spaces s)
  | Directive d :: ts' =>
      List.flat_map
        (fun alt =>
           match match_classes alt s with
           | Some (m, r) =>
               List.map (fun cr => ((d, m) :: fst cr, snd cr)) (match_tokens ts' r)
           | None => []
           end)
        (alternatives d)
  end.

Fixpoint capture (d : ascii) (caps : list (ascii * string)) (default : Z) : Z :=
  match caps with
  | [] => default
  | (d', m) :: caps' =>
      if Ascii.eqb d d' then digits_value 0 (lstrip m) else capture d caps' default
  end.

Definition is_leap (y : Z) : bool :=
  ((y mod 4 =? 0) && negb (y mod 100 =? 0) || (y mod 400 =? 0))%Z.

Definition days_in_month (y m : Z) : Z :=
  if (m =? 2)%Z then (if is_leap y then 29 else 28)%Z
  else if (m =? 4)%Z || (m =? 6)%Z || (m =? 9)%Z || (m =? 11)%Z then 30%Z
  else 31%Z.

(** The checks of the [date] and [datetime] constructors. *)
Definition valid_datetime (dt : datetime) : bool :=
  ((1 <=? year dt) && (year dt <=? 9999)
   && (1 <=? month dt) && (month dt <=? 12)
   && (1 <=? day dt) && (day dt <=? days_in_month (year dt) (month dt))
   && (0 <=? hour dt) && (hour dt <=? 23)
   && (0 <=? minute dt) && (minute dt <=? 59)
   && (0 <=? second dt) && (second dt <=? 59))%Z.

(** [datetime.strptime(s, fmt)]; [None] stands for its [ValueError]: no
    match, text left over after the match, or a date that does not exist. *)
Definition strptime (s fmt : string) : option datetime :=
  match match_tokens (tokens fmt) s with
  | (caps, EmptyString) :: _ =>
      let dt := mk_datetime (capture "Y" caps 1900) (capture "m" caps 1)
                            (capture "d" caps 1) (capture "H" caps 0)
                            (capture "M" caps 0) (capture "S" caps 0) in
      if valid_datetime dt then Some dt else None
  | _ => None
  end.

Definition pad (width : nat) (n : Z) : string :=
  let s := str_of_nonneg n in
  Float.zeros (width - String.length s) +:+ s.

(** [dt.isoformat()] for a [datetime] without microseconds or zone. *)
Definition isoformat (dt : datetime) : string :=
  pad 4 (year dt) +:+ "-" +:+ pad 2 (month dt) +:+ "-" +:+ pad 2 (day dt)
  +:+ "T" +:+ pad 2 (hour dt) +:+ ":" +:+ pad 2 (minute dt)
  +:+ ":" +:+ pad 2 (second dt).

End Py.
Export Py.

(** ** The generator *)

Module FA40HeaderGenerator.

(** *** The connector, as read from its JSON file

    [source] is a string or an array of strings; the other keys of a field
    definition are strings when present ([None]: the key is absent or
    [null]).  [required_fields] and [optional_fields] are arrays of
    strings, empty when the key is absent. *)

Inductive source_decl :=
  | SourceStr (s : string)
  | SourceList (l : list string).

Record field_config := mk_field_config {
  cfg_source : option source_decl;
  cfg_extraction : option string;
  cfg_transformation : option string;
  cfg_unit : option string
}.

Record validation_spec := mk_validation {
  required_fields : list string;
  optional_fields : list string
}.

Record connector := mk_connector {
  mappings : option (list (string * list (string * field_config)));
  validation : option validation_spec
}.

(** *** The transformation library (lines 184-291) *)

Definition is_control (c : ascii) : bool := in_range 0 31 c || in_range 127 159 c.

Definition _clean_string (value : Py.value) : string :=
  let value := match value with VTuple (x :: _) => x | _ => value end in
  match value with
  | VStr s => strip (str_filter (fun c => negb (is_control c)) s)
  | VNone => ""
  | _ => str value
  end.

(** Lines 207-216: a number read from a string.  [int] is unbounded here;
    the interpreter's limit on the length of a decimal text is left out. *)
Definition number_of_text (value : Py.value) : Py.value :=
  match value with
  | VStr s =>
      match first_number s with
      | Some text =>
          if contains_char "." text then VFloat (float_of_text text)
          else VInt (int_of_text text)
      | None => VNone
      end
  | _ => VNone
  end.

Definition _parse_first_number (value : Py.value) : Py.value :=
  if is_number value then value
  else match value with
       | VTuple (x :: _) | VList (x :: _) =>
           if is_number x then x else number_of_text x
       | _ => number_of_text value
       end.

Definition _get_first_valid_string (value : Py.value) : string :=
  let value :=
    match value with
    | VTuple (x :: _) | VList (x :: _) => x
    | _ => value
    end in
  match value with
  | VStr _ => _clean_string value
  | VNone => ""
  | _ => str value
  end.

Definition tiff_format : string := "%Y:%m:%d %H:%M:%S".

Definition formats : list string :=
  ["%Y-%m-%d %H:%M:%S"; "%Y/%m/%d %H:%M:%S"; "%Y-%m-%dT%H:%M:%S";
   "%Y-%m-%d"; "%Y:%m:%d"].

(** The loop of lines 256-261. *)
Fixpoint try_formats (value_str : string) (fmts : list string) : option string :=
  match fmts with
  | [] => None
  | fmt :: rest =>
      match strptime value_str fmt with
      | Some dt => Some (isoformat dt)
      | None => try_formats value_str rest
      end
  end.

Definition _datetime_to_iso8601 (value : Py.value) : Py.value :=
  if negb (truthy value) then VNone
  else
    let value_str := _get_first_valid_string value in
    if String.eqb value_str "" then VNone
    else
      let tiff :=
        if contains_char ":" value_str && contains_char " " value_str
        then strptime value_str tiff_format
        else None in
      match tiff with
      | Some dt => VStr (isoformat dt)
      | None =>
          match try_formats value_str formats with
          | Some iso => VStr iso
          | None => VStr value_str
          end
      end.

(** [dpi > 0] for the result of [_parse_first_number]. *)
Definition greater_than_zero (dpi : value) : bool :=
  match dpi with
  | VBool b => b
  | VInt n => (0 <? n)%Z
  | VFloat f => SFltb (S754_zero false) f
  | _ => false
  end.

(** [25400000 / dpi]: the division of two [int]s is rounded once, from
    the exact quotient; a [float] divisor divides the float 25400000.0. *)
Definition nm_per_pixel (dpi : value) : spec_float :=
  match dpi with
  | VBool _ => Float.of_Z 25400000
  | VInt n => Float.of_ratio false 25400000 n
  | VFloat f => Float.div (Float.of_Z 25400000) f
  | _ => S754_nan
  end.

Definition _resolution_to_pixel_size (value : Py.value) : Py.value :=
  let dpi := _parse_first_number value in
  if truthy dpi && greater_than_zero dpi
  then VFloat (Float.round2 (nm_per_pixel dpi))
  else VNone.

Definition mode_map : list (string * string) :=
  [("l", "grayscale"); ("grayscale", "grayscale"); ("grey", "grayscale");
   ("gray", "grayscale"); ("rgb", "rgb"); ("rgba", "rgb"); ("cmyk", "cmyk");
   ("palette", "palette"); ("p", "palette")].

Fixpoint assoc (k : string) (l : list (string * string)) : option string :=
  match l with
  | [] => None
  | (k', v) :: l' => if String.eqb k k' then Some v else assoc k l'
  end.

Definition _normalize_color_mode (value : Py.value) : string :=
  let mode_str := lower (_get_first_valid_string value) in
  default mode_str (assoc mode_str mode_map).

(** Lines 167-182. *)
Definition apply_transformation (value : Py.value) (transformation : string) : Py.value :=
  if String.eqb transformation "clean_string" then VStr (_clean_string value)
  else if String.eqb transformation "first_available_numeric" then
    _parse_first_number value
  else if String.eqb transformation "first_available_string" then
    VStr (_get_first_valid_string value)
  else if String.eqb transformation "convert_to_iso8601" then
    _datetime_to_iso8601 value
  else if String.eqb transformation "dpi_to_nanometers" then
    _resolution_to_pixel_size value
  else if String.eqb transformation "standardize_color_mode" then
    VStr (_normalize_color_mode value)
  else value.

(** *** Path and field resolution *)

(** Lines 293-306.  [part] is always a [str], so the membership test
    [part in current] looks for the string key only. *)
Fixpoint descend (parts : list string) (current : value) : Py.value :=
  match parts with
  | [] => current
  | part :: rest =>
      match current with
      | VDict d =>
          match dict_get (KStr part) d with
          | Some v => descend rest v
          | None => VNone
          end
      | _ => VNone
      end
  end.

Definition extract_value_from_source (metadata : value) (source_path : string)
  : Py.value :=
  descend (split_on "." source_path) metadata.


(** Lines 312-314. *)
Definition sources_of (field_config : field_config) : list string :=
  match cfg_source field_config with
  | None => []
  | Some (SourceStr s) => [s]
  | Some (SourceList l) => l
  end.

(** [obj.get(k, {})] *)
Definition get_or_empty (obj : value) (k : string) : result Py.value :=
  match obj with
  | VDict d => Ok (default (VDict []) (dict_get (KStr k) d))
  | _ => Raise AttributeError
  end.

(** Lines 318-325: the raw value of one source. *)
Definition source_value (metadata : list (key * value)) (source : string)
  : result Py.value :=
  if String.eqb source "filename" then
    match dict_get (KStr "file_path") metadata with
    | None => Raise KeyError
    | Some (VStr p) => Ok (VStr (path_name p))
    | Some _ => Raise TypeError
    end
  else if String.eqb source "file_size" then
    match dict_get (KStr "file_size") metadata with
    | None => Raise KeyError
    | Some v => Ok v
    end
  else if String.eqb source "format" then
    let? pillow := get_or_empty (VDict metadata) "pillow" in
    let? basic_info := get_or_empty pillow "basic_info" in
    match basic_info with
    | VDict d => Ok (default VNone (dict_get (KStr "format") d))
    | _ => Raise AttributeError
    end
  else Ok (extract_value_from_source (VDict metadata) source).

(** Lines 329-331: the transformation, when the key holds a non-empty
    name. *)
Definition transformed (field_config : field_config) (value : Py.value) : Py.value :=
  match cfg_transformation field_config with
  | Some transformation =>
      if String.eqb transformation "" then value
      else apply_transformation value transformation
  | None => value
  end.

(** Lines 334-340: the extraction method applied to a value. *)
Definition apply_extraction (value : Py.value) (extraction : string) : Py.value :=
  if String.eqb extraction "first_available_numeric" then
    _parse_first_number value
  else if String.eqb extraction "first_available_string" then
    VStr (_get_first_valid_string value)
  else if String.eqb extraction "resolution_to_pixel_size"
          || String.eqb extraction "dpi_to_nanometers" then
    _resolution_to_pixel_size value
  else value.

Definition extracted (field_config : field_config) (value : Py.value) : Py.value :=
  apply_extraction value (default "as_is" (cfg_extraction field_config)).

(** Lines 317-345: the loop over the sources. *)
Fixpoint resolve_sources (metadata : list (key * value))
    (field_config : field_config) (sources : list string) : result Py.value :=
  match sources with
  | [] => Ok VNone
  | source :: rest =>
      let? value := source_value metadata source in
      if is_none value then resolve_sources metadata field_config rest
      else
        let value := transformed field_config value in
        let value := extracted field_config value in
        if is_none value then resolve_sources metadata field_config rest
        else Ok value
  end.

Definition resolve_field_value (metadata : list (key * value))
    (field_config : field_config) : result Py.value :=
  resolve_sources metadata field_config (sources_of field_config).

(** *** The header assembler (lines 347-413)

    The header maps a section name to the fields of the section.  The
    metadata of the TIFF file and the reading of the clock come from
    outside and are arguments here. *)

Definition fa40_header_init : gmap string (gmap string Py.value) :=
  list_to_map
    [("General Section", ∅); ("Method Specific", ∅); ("Tool Specific", ∅);
     ("Customer Specific", ∅); ("Data Evaluation", ∅); ("History", ∅)].

(** Lines 369-376; [None] is the [continue]. *)
Definition target_section_of (section_name : string) : option string :=
  if String.eqb section_name "general_section" then Some "General Section"
  else if String.eqb section_name "method_specific" then Some "Method Specific"
  else if String.eqb section_name "tool_specific" then Some "Tool Specific"
  else None.

Definition unit_fields : list string :=
  ["Image Width"; "Image Height"; "File Size"; "Pixel Width"; "Pixel Height"].

Fixpoint mem (x : string) (l : list string) : bool :=
  match l with
  | [] => false
  | y :: l' => String.eqb x y || mem x l'
  end.

(** Lines 383-396: what is stored for a field whose value is [value]. *)
Definition stored_value (field_name : string) (field_config : field_config)
    (value : Py.value) : Py.value :=
  match cfg_unit field_config with
  | Some unit =>
      if negb (String.eqb unit "") && mem field_name unit_fields
      then VDict [(KStr "Value", value); (KStr "Unit", VStr unit)]
      else value
  | None => value
  end.

(** [header[section][field] = v] for a section the header has. *)
Definition set_field (header : gmap string (gmap string Py.value))
    (section field : string) (v : Py.value)
  : gmap string (gmap string Py.value) :=
  alter (insert field v) section header.

(** Lines 378-396. *)
Fixpoint process_fields (metadata : list (key * Py.value))
    (target_section : string) (section_mappings : list (string * field_config))
    (fa40_header : gmap string (gmap string Py.value))
  : result (gmap string (gmap string Py.value)) :=
  match section_mappings with
  | [] => Ok fa40_header
  | (field_name, field_config) :: rest =>
      let? value := resolve_field_value metadata field_config in
      process_fields metadata target_section rest
        (if is_none value then fa40_header
         else set_field fa40_header target_section field_name
                (stored_value field_name field_config value))
  end.

(** Lines 368-396. *)
Fixpoint process_mappings (metadata : list (key * Py.value))
    (ms : list (string * list (string * field_config)))
    (fa40_header : gmap string (gmap string Py.value))
  : result (gmap string (gmap string Py.value)) :=
  match ms with
  | [] => Ok fa40_header
  | (section_name, section_mappings) :: rest =>
      match target_section_of section_name with
      | Some target_section =>
          let? h := process_fields metadata target_section section_mappings
                      fa40_header in
          process_mappings metadata rest h
      | None => process_mappings metadata rest fa40_header
      end
  end.

(** Lines 398-405; [now] is [datetime.now().isoformat()]. *)
Definition add_header_metadata (fa40_header : gmap string (gmap string Py.value))
    (tiff_file now : string) : gmap string (gmap string Py.value) :=
  let h := set_field fa40_header "General Section" "Header Type"
             (VStr "FA4.0 standardized header") in
  let h := set_field h "General Section" "Version" (VStr "v1.0") in
  let h := set_field h "General Section" "Time Stamp" (VStr now) in
  match h !! "General Section" with
  | Some general =>
      match general !! "File Path" with
      | None => set_field h "General Section" "File Path"
                  (VStr (path_parent tiff_file))
      | Some _ => h
      end
  | None => h
  end.

Definition mapped_header (connector : connector) (metadata : list (key * Py.value))
  : result (gmap string (gmap string Py.value)) :=
  match mappings connector with
  | Some ms => process_mappings metadata ms fa40_header_init
  | None => Ok fa40_header_init
  end.

Definition generate_fa40_header (connector : connector)
    (metadata : list (key * Py.value)) (tiff_file now : string)
  : result (gmap string (gmap string Py.value)) :=
  let? h := mapped_header connector metadata in
  Ok (add_header_metadata h tiff_file now).

(** *** The validator (lines 415-453) *)

Record validation_results := mk_results {
  missing_required : list string;
  present_optional : list string;
  validation_errors : list string
}.

(** [section, field = parts]: exactly two parts, else [ValueError]. *)
Definition unpack_pair (parts : list string) : result (string * string) :=
  match parts with
  | [a; b] => Ok (a, b)
  | _ => Raise ValueError
  end.

Definition section_map (section : string) : string :=
  if String.eqb section "general_section" then "General Section"
  else if String.eqb section "method_specific" then "Method Specific"
  else if String.eqb section "tool_specific" then "Tool Specific"
  else section.

(** [actual_section in header and field in header[actual_section]] *)
Definition has_field (header : gmap string (gmap string Py.value))
    (actual_section field : string) : bool :=
  match header !! actual_section with
  | Some fields => bool_decide (is_Some (fields !! field))
  | None => false
  end.

(** Lines 428-438. *)
Fixpoint check_required (header : gmap string (gmap string Py.value))
    (paths : list string) (missing : list string) : result (list string) :=
  match paths with
  | [] => Ok missing
  | field_path :: rest =>
      let? (section, field) := unpack_pair (split_once "." field_path) in
      let actual_section := section_map section in
      check_required header rest
        (if negb (has_field header actual_section field)
         then missing ++ [field_path] else missing)
  end.

(** Lines 441-451. *)
Fixpoint check_optional (header : gmap string (gmap string Py.value))
    (paths : list string) (present : list string) : result (list string) :=
  match paths with
  | [] => Ok present
  | field_path :: rest =>
      let? (section, field) := unpack_pair (split_once "." field_path) in
      let actual_section := section_map section in
      check_optional header rest
        (if has_field header actual_section field
         then present ++ [field_path] else present)
  end.

Definition validate_header (connector : connector)
    (header : gmap string (gmap string Py.value)) : result validation_results :=
  match validation connector with
  | Some v =>
      let? missing := check_required header (required_fields v) [] in
      let? present := check_optional header (optional_fields v) [] in
      Ok (mk_results missing present [])
  | None => Ok (mk_results [] [] [])
  end.

End FA40HeaderGenerator.

(** ** The connector generator: the paths of a tree

    [tools/connector_generator.py]: the path test of lines 174-206 and
    the path collectors of lines 141-156 and 251-266. *)

(** [all(f(c) for c in s)] *)
Fixpoint str_forall (f : ascii -> bool) (s : string) : bool :=
  match s with
  | EmptyString => true
  | String c s' => f c && str_forall f s'
  end.

Module ConnectorGenerator.

(** [c.isdigit()] on the range 0..255: the digits and the superscripts
    two, three and one. *)
Definition isdigit_char (c : ascii) : bool :=
  is_digit c || (code c =? 178)%N || (code c =? 179)%N || (code c =? 185)%N.

(** [s.isdigit()] *)
Definition isdigit (s : string) : bool :=
  negb (String.eqb s "") && str_forall isdigit_char s.

(** [int(s)] for a string on which [isdigit] holds: a superscript is no
    decimal digit. *)
Definition int_of_digits (s : string) : result Z :=
  if str_forall is_digit s then Ok (digits_value 0 s) else Raise ValueError.

(** The loop of lines 192-203; [Ok false] is the [return False] of the
    loop, [Ok true] the end of the loop. *)
Fixpoint walk (parts : list string) (current : Py.value) : result bool :=
  match parts with
  | [] => Ok true
  | part :: rest =>
      match current with
      | VDict d =>
          match dict_get (KStr part) d with
          | Some v => walk rest v
          | None => Ok false
          end
      | VList l =>
          if isdigit part then
            let? i := int_of_digits part in
            match List.nth_error l (Z.to_nat i) with
            | Some v => walk rest v
            | None => Ok false
            end
          else Ok false
      | _ => Ok false
      end
  end.

(** Lines 186-206; an exception is caught and gives [False]. *)
Definition _path_exists_in_metadata (metadata : Py.value) (path : string) : bool :=
  match walk (split_on "." path) metadata with
  | Ok b => b
  | Raise _ => false
  end.


(** [f"{prefix}.{part}" if prefix else part] *)
Definition path_under (prefix part : string) : string :=
  if String.eqb prefix "" then part else prefix +:+ "." +:+ part.

(** [str(key)] *)
Definition key_text (k : key) : string :=
  match k with
  | KStr s => s
  | KInt n => str_of_int n
  end.

(** [isinstance(v, (dict, list))] *)
Definition is_container (v : Py.value) : bool :=
  match v with
  | VDict _ | VList _ => true
  | _ => false
  end.

(** [for i, x in enumerate(l[:n], start)], the results concatenated. *)
Definition for_enumerate {A B : Type} (f : nat -> A -> list B)
  : nat -> nat -> list A -> list B :=
  fix go (n start : nat) (l : list A) {struct l} : list B :=
    match l with
    | x :: l' =>
        match n with
        | S n' => (f start x ++ go n' (S start) l')%list
        | O => []
        end
    | [] => []
    end.

(** Lines 251-266: the paths of a tree, three items deep into a list. *)
Fixpoint _get_all_paths (obj : Py.value) (prefix : string) : list string :=
  match obj with
  | VDict d =>
      List.flat_map
        (fun kv =>
           let current_path := path_under prefix (key_text (fst kv)) in
           current_path
             :: (if is_container (snd kv) then _get_all_paths (snd kv) current_path
                 else []))
        d
  | VList l =>
      for_enumerate
        (fun i item =>
           let current_path := path_under prefix (str_of_int (Z.of_nat i)) in
           current_path
             :: (if is_container item then _get_all_paths item current_path
                 else []))
        3 0 l
  | _ => []
  end.

(** Lines 141-156, the local function of [analyze_metadata]. *)
Fixpoint collect_paths (obj : Py.value) (prefix : string) : list string :=
  match obj with
  | VDict d =>
      List.flat_map
        (fun kv =>
           let current_path := path_under prefix (key_text (fst kv)) in
           current_path
             :: (if is_container (snd kv) then collect_paths (snd kv) current_path
                 else []))
        d
  | VList (item :: _) =>
      let current_path := path_under prefix "0" in
      current_path
        :: (if is_container item then collect_paths item current_path else [])
  | _ => []
  end.

End ConnectorGenerator.


(** * Vocabulary of the properties *)

Import FA40HeaderGenerator.

(** The tree of [tests/test_fixtures.py], cut down to the entries used
    below: a custom tag stored under the integer key 32001, and a shape
    stored as a sequence. *)
Definition sample_tiff_metadata : Py.value :=
  VDict
    [(KStr "pillow",
      VDict [(KStr "tags_v2",
              VDict [(KStr "ImageWidth", VInt 1000);
                     (KInt 32001, VStr "SemiShop v2.1")])]);
     (KStr "tifffile", VDict [(KStr "shape", VList [VInt 1000; VInt 1000; VInt 3])])].

(** What [_extract_with_tifffile] builds: the pages of the file as a
    list, each page with its tags. *)
Definition tifffile_metadata : Py.value :=
  VDict
    [(KStr "tifffile",
      VDict [(KStr "pages",
              VList [VDict [(KStr "shape", VTuple [VInt 1000; VInt 1000]);
                            (KStr "dtype", VStr "uint8");
                            (KStr "tags", VDict [(KStr "ImageWidth", VInt 1000)])]])])].

Definition known_transformations : list string :=
  ["clean_string"; "first_available_numeric"; "first_available_string";
   "convert_to_iso8601"; "dpi_to_nanometers"; "standardize_color_mode"].

Definition known_extractions : list string :=
  ["first_available_numeric"; "first_available_string";
   "resolution_to_pixel_size"; "dpi_to_nanometers"].

(** [header[section][field]], when both keys are there. *)
Definition field_of (h : gmap string (gmap string Py.value))
    (section field : string) : option Py.value :=
  h !! section ≫= (fun fields => fields !! field).

(** A path is present when it splits at its first point into a section
    token and a field, and the header has that field in the section the
    token stands for. *)
Definition path_present (header : gmap string (gmap string Py.value))
    (field_path : string) : Prop :=
  exists section field,
    split_once "." field_path = [section; field]
    /\ is_Some (field_of header (section_map section) field).

Definition path_presentb (header : gmap string (gmap string Py.value))
    (field_path : string) : bool :=
  match split_once "." field_path with
  | [section; field] => has_field header (section_map section) field
  | _ => false
  end.

Definition dotted (field_path : string) : bool := contains_char "." field_path.

(** A field definition named [field] is declared for the output section
    [target]. *)
Definition declared_in (ms : list (string * list (string * field_config)))
    (target field : string) : Prop :=
  exists section_name section_mappings,
    In (section_name, section_mappings) ms
    /\ target_section_of section_name = Some target
    /\ In field (List.map fst section_mappings).

Definition declared (connector : connector) (target field : string) : Prop :=
  match mappings connector with
  | Some ms => declared_in ms target field
  | None => False
  end.

(** The fields the assembler adds by itself. *)
Definition injected (target field : string) : Prop :=
  target = "General Section"
  /\ In field ["Header Type"; "Version"; "Time Stamp"; "File Path"].



(** The shape of every tree [extract_file_metadata] builds: a string
    under [file_path], something under [file_size], and dicts under
    [pillow] and, inside it, under [basic_info] when they are there. *)
Definition extractor_shaped (metadata : list (key * Py.value)) : Prop :=
  (exists p, dict_get (KStr "file_path") metadata = Some (VStr p))
  /\ is_Some (dict_get (KStr "file_size") metadata)
  /\ (forall pillow,
         dict_get (KStr "pillow") metadata = Some pillow ->
         exists d,
           pillow = VDict d
           /\ forall info,
                dict_get (KStr "basic_info") d = Some info ->
                exists i, info = VDict i).

Fixpoint all_digits (s : string) : bool :=
  match s with
  | EmptyString => true
  | String c s' => is_digit c && all_digits s'
  end.




Definition overwriting_connector : connector :=
  mk_connector
    (Some [("general_section",
            [("Version", mk_field_config (Some (SourceStr "tool_version")) None None None);
             ("Software", mk_field_config (Some (SourceStr "software")) None None None)])])
    None.

Definition sample_connector : connector :=
  mk_connector
    (Some [("general_section",
            [("File Name",
              mk_field_config (Some (SourceList ["filename"]))
                (Some "file_metadata") None None);
             ("Image Width",
              mk_field_config
                (Some (SourceList ["pillow.width"; "pillow.tags_v2.ImageWidth"]))
                (Some "first_available_numeric") None (Some "pixels"))])])
    (Some (mk_validation
             ["general_section.File Name"; "general_section.Image Width"]
             ["general_section.Software"])).

Definition bare_connector : connector :=
  mk_connector (Some [("general_section", [])])
    (Some (mk_validation ["general_section.Version"]
                         ["general_section.Header Type"])).



Import ConnectorGenerator.

Definition not_control (c : ascii) : bool := negb (is_control c).

Definition no_space (c : ascii) : bool := negb (is_space c).

(** After [lstrip] a string is empty or begins with a character that is
    not white space. *)
Definition no_leading_space (s : string) : Prop :=
  match s with
  | String c _ => is_space c = false
  | EmptyString => True
  end.

(** The four names of the colour-mode table. *)
Definition color_modes : list string := ["grayscale"; "rgb"; "cmyk"; "palette"].

(** The sections of every header. *)
Definition header_sections : list string :=
  ["General Section"; "Method Specific"; "Tool Specific"; "Customer Specific";
   "Data Evaluation"; "History"].

(** Some definition of [field] under a section of [ms] mapped to [target]
    resolves to a value that is not [None]. *)
Definition resolves_in (metadata : list (key * Py.value))
    (ms : list (string * list (string * field_config)))
    (target field : string) : Prop :=
  exists section_name section_mappings field_config value,
    In (section_name, section_mappings) ms
    /\ target_section_of section_name = Some target
    /\ In (field, field_config) section_mappings
    /\ resolve_field_value metadata field_config = Ok value
    /\ value <> VNone.

Definition resolves (connector : connector) (metadata : list (key * Py.value))
    (target field : string) : Prop :=
  exists ms, mappings connector = Some ms
             /\ resolves_in metadata ms target field.

(** The connector without the mapping sections that have no output
    section. *)
Definition known_section (entry : string * list (string * field_config)) : bool :=
  match target_section_of (fst entry) with
  | Some _ => true
  | None => false
  end.

Definition without_unknown_sections (connector : connector)
  : FA40HeaderGenerator.connector :=
  mk_connector (option_map (List.filter known_section) (mappings connector))
               (validation connector).

(** The format of [isoformat] and the characters of its texts. *)
Definition iso_format : string := "%Y-%m-%dT%H:%M:%S".

Definition iso_char (c : ascii) : bool :=
  is_digit c || Ascii.eqb c "-" || Ascii.eqb c "T" || Ascii.eqb c ":".

Definition four_digits (s : string) : bool :=
  match s with
  | String a (String b (String c (String e EmptyString))) =>
      is_digit a && is_digit b && is_digit c && is_digit e
  | _ => false
  end.

(** The text of a year is four digits that read as the year; the text of
    a smaller field is made of digits that read as the field. *)
Definition year_text_ok (k : nat) : bool :=
  four_digits (pad 4 (Z.of_nat k))
  && (digits_value 0 (lstrip (pad 4 (Z.of_nat k))) =? Z.of_nat k)%Z.

Definition two_digits_ok (k : nat) : bool :=
  (digits_value 0 (lstrip (pad 2 (Z.of_nat k))) =? Z.of_nat k)%Z
  && all_digits (pad 2 (Z.of_nat k)).

(** The first of a list of matches. *)
Definition first_match {A : Type} (l : list A) (x : A) : Prop :=
  exists l', l = x :: l'.

(** The text of the value [v] of directive [d], followed by a text that
    the rest of the format matches, is matched first with that text. *)
Definition directive_step (d : ascii) (v : Z) : Prop :=
  forall ts rest caps r,
    first_match (match_tokens ts rest) (caps, r) ->
    first_match (match_tokens (Directive d :: ts) (pad 2 v +:+ rest))
                ((d, pad 2 v) :: caps, r).

(** A key that a dotted path can name: a string that is not empty and has
    no point. *)
Definition plain_key (k : key) : bool :=
  match k with
  | KStr s => negb (String.eqb s "") && negb (contains_char "." s)
  | KInt _ => false
  end.

Fixpoint distinct (l : list key) : bool :=
  match l with
  | [] => true
  | k :: l' => negb (existsb (key_eqb k) l') && distinct l'
  end.

(** A tree whose dicts have distinct plain keys; a tuple is a leaf. *)
Fixpoint plain_keys (v : Py.value) : bool :=
  match v with
  | VDict d =>
      distinct (List.map fst d)
      && forallb (fun kv => plain_key (fst kv) && plain_keys (snd kv)) d
  | VList l => forallb plain_keys l
  | _ => true
  end.

(** * Properties *)


(** ** Strings *)

Section Strings.

Lemma eqb_false_of_mem (x y : string) (l : list string) :
  mem x (y :: l) = false -> String.eqb x y = false /\ mem x l = false.
Proof. simpl. intros H. apply orb_false_elim in H. exact H. Qed.

Lemma split_once_no_sep (sep : ascii) (s : string) :
  contains_char sep s = false -> split_once sep s = [s].
Proof.
  induction s as [|c s IH]; simpl; [reflexivity|].
  intros H. apply orb_false_elim in H as [Hc Hs].
  rewrite Hc, (IH Hs). reflexivity.
Qed.

Lemma split_once_sep (sep : ascii) (s : string) :
  contains_char sep s = true ->
  exists a b, split_once sep s = [a; b] /\ contains_char sep a = false.
Proof.
  induction s as [|c s IH]; simpl; [discriminate|].
  destruct (Ascii.eqb c sep) eqn:Hc; simpl.
  - intros _. exists EmptyString, s. split; reflexivity.
  - intros Hs. destruct (IH Hs) as (a & b & -> & Ha).
    exists (String c a), b. split; [reflexivity|]. simpl. now rewrite Hc.
Qed.

End Strings.

(** ** The path resolver *)

(** A step that meets anything but a mapping holding the segment as a
    string key ends the walk with [None]. *)
Lemma descend_not_dict (part : string) (rest : list string) (current : Py.value) :
  (forall d, current <> VDict d) -> descend (part :: rest) current = VNone.
Proof. destruct current; simpl; try reflexivity. intros H. now destruct (H d). Qed.

Lemma descend_string_key (part : string) (rest : list string)
    (d : list (key * Py.value)) :
  descend (part :: rest) (VDict d) =
  match dict_get (KStr part) d with
  | Some v => descend rest v
  | None => VNone
  end.
Proof. reflexivity. Qed.

(** C2. [extract_value_from_source] looks a segment up as a string key of
    a mapping and does nothing else: on the fixture tree the tag stored
    under the integer key 32001 is not found through
    ["pillow.tags_v2.32001"], and the sequence under [tifffile.shape] is
    not entered through ["tifffile.shape.0"]; on a tree as the tifffile
    extractor builds it the first page is not entered through
    ["tifffile.pages.0.tags.ImageWidth"].  These walks end with [None],
    while a string key is found.  No segment reaches an entry stored
    under an integer key, and no segment enters a list or a tuple. *)
Theorem extract_value_misses_integer_keys_and_sequences :
  extract_value_from_source sample_tiff_metadata "pillow.tags_v2.32001" = VNone
  /\ extract_value_from_source sample_tiff_metadata "tifffile.shape.0" = VNone
  /\ extract_value_from_source tifffile_metadata "tifffile.pages.0.tags.ImageWidth"
     = VNone
  /\ extract_value_from_source sample_tiff_metadata "pillow.tags_v2.ImageWidth"
     = VInt 1000
  /\ (forall part rest n v,
         descend (part :: rest) (VDict [(KInt n, v)]) = VNone)
  /\ (forall part rest l,
         descend (part :: rest) (VList l) = VNone
         /\ descend (part :: rest) (VTuple l) = VNone).
Proof. repeat apply conj; reflexivity || (intros; split; reflexivity). Qed.

(** ** Unknown names *)

Ltac split_mem H :=
  repeat (let E := fresh "E" in apply eqb_false_of_mem in H as [E H]; try rewrite E).

(** C6. A transformation name outside the six known ones leaves the value
    as it is, and so does an extraction name outside the four known ones,
    both in [apply_extraction] and in the extraction step of a field that
    declares that name. *)
Theorem unknown_names_act_as_identity (value : Py.value) (name : string) :
  (mem name known_transformations = false ->
   apply_transformation value name = value)
  /\ (mem name known_extractions = false ->
      apply_extraction value name = value
      /\ forall field_config,
           cfg_extraction field_config = Some name ->
           extracted field_config value = value).
Proof.
  split.
  - intros H. unfold known_transformations in H. unfold apply_transformation.
    split_mem H. reflexivity.
  - intros H. unfold known_extractions in H.
    assert (Hx : apply_extraction value name = value).
    { unfold apply_extraction. split_mem H. reflexivity. }
    split; [exact Hx|].
    intros field_config Hcfg. unfold extracted. rewrite Hcfg. exact Hx.
Qed.

Lemma unknown_names_act_as_identity_witness :
  apply_transformation (VStr "test") "unknown_transformation" = VStr "test"
  /\ apply_extraction (VInt 7) "file_metadata" = VInt 7.
Proof.
  split.
  - apply (unknown_names_act_as_identity (VStr "test") "unknown_transformation").
    reflexivity.
  - apply (unknown_names_act_as_identity (VInt 7) "file_metadata").
    reflexivity.
Defined.

(** ** The header as a two-level map *)

Section Header.

Implicit Types (h : gmap string (gmap string Py.value)).
Implicit Types (section field : string) (v : Py.value).

Lemma field_of_set_field_eq h section field v fields :
  h !! section = Some fields ->
  field_of (set_field h section field v) section field = Some v.
Proof.
  intros H. unfold field_of, set_field.
  rewrite lookup_alter_eq, H. simpl. apply lookup_insert_eq.
Qed.

Lemma field_of_set_field_ne h section field v section' field' :
  (section, field) <> (section', field') ->
  field_of (set_field h section field v) section' field'
  = field_of h section' field'.
Proof.
  intros H. unfold field_of, set_field.
  destruct (decide (section = section')) as [<-|Hs].
  - rewrite lookup_alter_eq. destruct (h !! section) as [fields|]; simpl; [|done].
    apply lookup_insert_ne. intros ->. now apply H.
  - now rewrite lookup_alter_ne.
Qed.

Lemma set_field_section_some h section field v section' :
  is_Some (set_field h section field v !! section') <-> is_Some (h !! section').
Proof.
  unfold set_field. destruct (decide (section = section')) as [<-|Hs].
  - rewrite lookup_alter_eq. apply fmap_is_Some.
  - now rewrite lookup_alter_ne.
Qed.

Lemma has_field_spec h section field :
  has_field h section field = true <-> is_Some (field_of h section field).
Proof.
  unfold has_field, field_of. destruct (h !! section) as [fields|]; simpl.
  - apply bool_decide_eq_true.
  - split; [discriminate|]. intros [? ?]. discriminate.
Qed.

Lemma mem_In (x : string) (l : list string) : mem x l = true <-> In x l.
Proof.
  induction l as [|y l IH]; simpl; [split; [discriminate|tauto]|].
  rewrite orb_true_iff, IH, String.eqb_eq. split; intros [H|H]; auto.
Qed.

End Header.

(** C3. A field whose resolved value is not [None] is stored under its
    name in the target section: as the dict [{Value, Unit}] when the
    definition has a (non-empty) unit and the name is one of Image Width,
    Image Height, File Size, Pixel Width, Pixel Height; as the bare value
    in every other case, a unit outside these five names included. *)
Theorem unit_envelope_only_for_listed_fields
    (metadata : list (key * Py.value)) (target name : string)
    (field_config : field_config) (value : Py.value)
    (h : gmap string (gmap string Py.value)) (fields : gmap string Py.value) :
  h !! target = Some fields ->
  resolve_field_value metadata field_config = Ok value ->
  value <> VNone ->
  exists h',
    process_fields metadata target [(name, field_config)] h = Ok h'
    /\ (forall unit,
          cfg_unit field_config = Some unit -> unit <> "" ->
          In name ["Image Width"; "Image Height"; "File Size";
                   "Pixel Width"; "Pixel Height"] ->
          field_of h' target name
          = Some (VDict [(KStr "Value", value); (KStr "Unit", VStr unit)]))
    /\ (cfg_unit field_config = None \/ cfg_unit field_config = Some ""
        \/ ~ In name ["Image Width"; "Image Height"; "File Size";
                      "Pixel Width"; "Pixel Height"] ->
        field_of h' target name = Some value).
Proof.
  intros Hsec Hres Hval. simpl. rewrite Hres. simpl.
  assert (Hn : is_none value = false) by (destruct value; simpl; congruence).
  rewrite Hn. eexists. split; [reflexivity|].
  rewrite (field_of_set_field_eq _ _ _ _ _ Hsec). unfold stored_value. split.
  - intros unit Hu Hne Hin. rewrite Hu.
    apply (proj2 (mem_In name unit_fields)) in Hin. rewrite Hin.
    destruct (String.eqb_spec unit ""); [contradiction|reflexivity].
  - intros [Hu|[Hu|Hin]].
    + now rewrite Hu.
    + now rewrite Hu.
    + destruct (cfg_unit field_config) as [unit|]; [|reflexivity].
      destruct (mem name unit_fields) eqn:Hm.
      * apply mem_In in Hm. contradiction.
      * now rewrite andb_false_r.
Qed.

Lemma unit_envelope_only_for_listed_fields_witness :
  exists h',
    process_fields [(KStr "pillow", VDict [(KStr "width", VInt 800)])]
      "General Section"
      [("Image Width",
        mk_field_config (Some (SourceList ["pillow.width"]))
          (Some "first_available_numeric") None (Some "pixels"))]
      fa40_header_init = Ok h'
    /\ field_of h' "General Section" "Image Width"
       = Some (VDict [(KStr "Value", VInt 800); (KStr "Unit", VStr "pixels")]).
Proof.
  destruct (unit_envelope_only_for_listed_fields
              [(KStr "pillow", VDict [(KStr "width", VInt 800)])]
              "General Section" "Image Width"
              (mk_field_config (Some (SourceList ["pillow.width"]))
                 (Some "first_available_numeric") None (Some "pixels"))
              (VInt 800) fa40_header_init ∅)
    as (h' & Hrun & Henv & _).
  - reflexivity.
  - reflexivity.
  - discriminate.
  - exists h'. split; [exact Hrun|].
    apply (Henv "pixels"); [reflexivity|discriminate|simpl; tauto].
Defined.

(** ** The validator *)

Section Validator.

Variable header : gmap string (gmap string Py.value).

Lemma path_presentb_spec (field_path : string) :
  path_presentb header field_path = true <-> path_present header field_path.
Proof.
  unfold path_presentb, path_present. split.
  - destruct (split_once "." field_path) as [|a [|b [|? ?]]]; try discriminate.
    intros H. exists a, b. split; [reflexivity|]. now apply has_field_spec.
  - intros (a & b & -> & H). now apply has_field_spec.
Qed.

Lemma check_required_spec (paths missing : list string) :
  check_required header paths missing =
  if forallb dotted paths
  then Ok (missing ++ List.filter (fun p => negb (path_presentb header p)) paths)%list
  else Raise ValueError.
Proof.
  revert missing. induction paths as [|p paths IH]; intros missing; simpl.
  - now rewrite app_nil_r.
  - unfold dotted at 1. destruct (contains_char "." p) eqn:Hp; simpl.
    + destruct (split_once_sep _ _ Hp) as (a & b & Hs & _).
      unfold path_presentb at 1. rewrite Hs. simpl. rewrite IH.
      destruct (forallb dotted paths); [|reflexivity].
      destruct (has_field header (section_map a) b); simpl; [reflexivity|].
      now rewrite <- app_assoc.
    + now rewrite (split_once_no_sep _ _ Hp).
Qed.

Lemma check_optional_spec (paths present : list string) :
  check_optional header paths present =
  if forallb dotted paths
  then Ok (present ++ List.filter (path_presentb header) paths)%list
  else Raise ValueError.
Proof.
  revert present. induction paths as [|p paths IH]; intros present; simpl.
  - now rewrite app_nil_r.
  - unfold dotted at 1. destruct (contains_char "." p) eqn:Hp; simpl.
    + destruct (split_once_sep _ _ Hp) as (a & b & Hs & _).
      unfold path_presentb at 1. rewrite Hs. simpl. rewrite IH.
      destruct (forallb dotted paths); [|reflexivity].
      destruct (has_field header (section_map a) b); simpl; [|reflexivity].
      now rewrite <- app_assoc.
    + now rewrite (split_once_no_sep _ _ Hp).
Qed.

Lemma validate_header_spec (connector : connector) (v : validation_spec) :
  validation connector = Some v ->
  validate_header connector header =
  if forallb dotted (required_fields v ++ optional_fields v)%list
  then Ok (mk_results
             (List.filter (fun p => negb (path_presentb header p)) (required_fields v))
             (List.filter (path_presentb header) (optional_fields v)) [])
  else Raise ValueError.
Proof.
  intros Hv. unfold validate_header. rewrite Hv.
  rewrite check_required_spec, forallb_app.
  destruct (forallb dotted (required_fields v)); simpl; [|reflexivity].
  rewrite check_optional_spec.
  destruct (forallb dotted (optional_fields v)); reflexivity.
Qed.

End Validator.

(** C10. With a validation spec, a required or optional path without a
    point makes [validate_header] raise [ValueError], whatever the header
    is: the split of the path gives one part where two are unpacked.
    When every path has a point the call returns a report. *)
Theorem validate_header_raises_without_point
    (connector : connector) (v : validation_spec)
    (header : gmap string (gmap string Py.value)) :
  validation connector = Some v ->
  ((exists field_path,
       In field_path (required_fields v ++ optional_fields v)%list
       /\ contains_char "." field_path = false) ->
   validate_header connector header = Raise ValueError)
  /\ ((forall field_path,
          In field_path (required_fields v ++ optional_fields v)%list ->
          contains_char "." field_path = true) ->
      exists report, validate_header connector header = Ok report).
Proof.
  intros Hv. rewrite (validate_header_spec header connector v Hv). split.
  - intros (p & Hin & Hp).
    destruct (forallb dotted (required_fields v ++ optional_fields v)%list) eqn:Hall;
      [|reflexivity].
    rewrite forallb_forall in Hall. specialize (Hall p Hin).
    unfold dotted in Hall. congruence.
  - intros Hall.
    assert (H : forallb dotted (required_fields v ++ optional_fields v)%list = true)
      by (apply forallb_forall; exact Hall).
    rewrite H. eexists. reflexivity.
Qed.

Lemma validate_header_raises_without_point_witness :
  validate_header
    (mk_connector None (Some (mk_validation ["File Name"] [])))
    fa40_header_init = Raise ValueError
  /\ exists report,
       validate_header
         (mk_connector None
            (Some (mk_validation ["general_section.File Name"] [])))
         fa40_header_init = Ok report.
Proof.
  split.
  - apply (validate_header_raises_without_point
             (mk_connector None (Some (mk_validation ["File Name"] [])))
             (mk_validation ["File Name"] []) fa40_header_init).
    + reflexivity.
    + exists "File Name". split; [simpl; tauto|reflexivity].
  - apply (validate_header_raises_without_point
             (mk_connector None
                (Some (mk_validation ["general_section.File Name"] [])))
             (mk_validation ["general_section.File Name"] []) fa40_header_init).
    + reflexivity.
    + intros p [<-|[]]. reflexivity.
Defined.

(** ** The assembler *)

Section Assembler.

Variable metadata : list (key * Py.value).

Implicit Types (h : gmap string (gmap string Py.value)).

Lemma field_of_set_field h section field v section' field' :
  is_Some (field_of (set_field h section field v) section' field') ->
  is_Some (field_of h section' field') \/ (section' = section /\ field' = field).
Proof.
  destruct (decide ((section, field) = (section', field'))) as [E|E].
  - injection E as <- <-. now right.
  - rewrite field_of_set_field_ne by exact E. now left.
Qed.

Lemma process_fields_sections target section_mappings h h' section :
  process_fields metadata target section_mappings h = Ok h' ->
  is_Some (h' !! section) <-> is_Some (h !! section).
Proof.
  revert h. induction section_mappings as [|[name cfg] rest IH]; intros h; simpl.
  - now intros [= <-].
  - destruct (resolve_field_value metadata cfg) as [value|e]; simpl; [|discriminate].
    intros H. rewrite (IH _ H).
    destruct (is_none value); [reflexivity|apply set_field_section_some].
Qed.

Lemma process_fields_fields target section_mappings h h' section field :
  process_fields metadata target section_mappings h = Ok h' ->
  is_Some (field_of h' section field) ->
  is_Some (field_of h section field)
  \/ (section = target /\ In field (List.map fst section_mappings)).
Proof.
  revert h. induction section_mappings as [|[name cfg] rest IH]; intros h; simpl.
  - intros [= <-]. now left.
  - destruct (resolve_field_value metadata cfg) as [value|e]; simpl; [|discriminate].
    intros H Hf. destruct (IH _ H Hf) as [Hh|[-> Hin]]; [|now right; auto].
    destruct (is_none value); [now left|].
    apply field_of_set_field in Hh as [Hh|[-> ->]]; [now left|right; auto].
Qed.

Lemma process_mappings_sections ms h h' section :
  process_mappings metadata ms h = Ok h' ->
  is_Some (h' !! section) <-> is_Some (h !! section).
Proof.
  revert h. induction ms as [|[name fields] rest IH]; intros h; simpl.
  - now intros [= <-].
  - destruct (target_section_of name) as [target|]; [|apply IH].
    destruct (process_fields metadata target fields h) as [h1|e] eqn:H1; simpl;
      [|discriminate].
    intros H. rewrite (IH _ H). exact (process_fields_sections _ _ _ _ _ H1).
Qed.

Lemma process_mappings_fields ms h h' section field :
  process_mappings metadata ms h = Ok h' ->
  is_Some (field_of h' section field) ->
  is_Some (field_of h section field) \/ declared_in ms section field.
Proof.
  revert h. induction ms as [|[name fields] rest IH]; intros h; simpl.
  - intros [= <-]. now left.
  - assert (Hrest : declared_in rest section field ->
                    declared_in ((name, fields) :: rest) section field).
    { intros (n & f & Hin & Ht & Hf). exists n, f. simpl. auto. }
    destruct (target_section_of name) as [target|] eqn:Ht.
    + destruct (process_fields metadata target fields h) as [h1|e] eqn:H1; simpl;
        [|discriminate].
      intros H Hf. destruct (IH _ H Hf) as [Hh|Hd]; [|right; auto].
      destruct (process_fields_fields _ _ _ _ _ _ H1 Hh) as [Hh0|[-> Hin]];
        [now left|].
      right. exists name, fields. simpl. auto.
    + intros H Hf. destruct (IH _ H Hf) as [Hh|Hd]; [now left|right; auto].
Qed.

Lemma field_of_init section field : field_of fa40_header_init section field = None.
Proof.
  unfold field_of, fa40_header_init. simpl.
  repeat (rewrite lookup_insert; case_decide; [reflexivity|]).
  reflexivity.
Qed.

Lemma mapped_header_general (connector : connector) h :
  mapped_header connector metadata = Ok h ->
  is_Some (h !! "General Section").
Proof.
  unfold mapped_header. destruct (mappings connector) as [ms|].
  - intros H. apply (process_mappings_sections _ _ _ _ H). now eexists.
  - intros [= <-]. now eexists.
Qed.

Lemma mapped_header_fields (connector : connector) h section field :
  mapped_header connector metadata = Ok h ->
  is_Some (field_of h section field) -> declared connector section field.
Proof.
  unfold mapped_header, declared. destruct (mappings connector) as [ms|].
  - intros H Hf. destruct (process_mappings_fields _ _ _ _ _ H Hf) as [Hi|Hd];
      [|exact Hd].
    rewrite field_of_init in Hi. destruct Hi. discriminate.
  - intros [= <-]. rewrite field_of_init. intros [? ?]. discriminate.
Qed.

End Assembler.

(** ** The fields added after the mappings *)

Section HeaderMetadata.

Implicit Types (h : gmap string (gmap string Py.value)).

Lemma field_of_set_field_same h section field v :
  is_Some (h !! section) ->
  field_of (set_field h section field v) section field = Some v.
Proof. intros [fields H]. exact (field_of_set_field_eq _ _ _ _ _ H). Qed.

Ltac sections :=
  repeat (apply set_field_section_some); assumption.

Ltac other_field :=
  rewrite field_of_set_field_ne by (intros [= ]; congruence).

Lemma add_header_metadata_cases h tiff_file now :
  let h3 :=
    set_field
      (set_field
         (set_field h "General Section" "Header Type"
            (VStr "FA4.0 standardized header"))
         "General Section" "Version" (VStr "v1.0"))
      "General Section" "Time Stamp" (VStr now) in
  add_header_metadata h tiff_file now = h3
  \/ add_header_metadata h tiff_file now
     = set_field h3 "General Section" "File Path" (VStr (path_parent tiff_file)).
Proof.
  intros h3. unfold add_header_metadata. fold h3.
  destruct (h3 !! "General Section") as [general|]; [|now left].
  destruct (general !! "File Path"); [now left|now right].
Qed.

Lemma add_header_metadata_three h tiff_file now :
  is_Some (h !! "General Section") ->
  field_of (add_header_metadata h tiff_file now) "General Section" "Header Type"
  = Some (VStr "FA4.0 standardized header")
  /\ field_of (add_header_metadata h tiff_file now) "General Section" "Version"
     = Some (VStr "v1.0")
  /\ field_of (add_header_metadata h tiff_file now) "General Section" "Time Stamp"
     = Some (VStr now).
Proof.
  intros Hg.
  destruct (add_header_metadata_cases h tiff_file now) as [-> | ->];
    repeat split; repeat other_field;
    apply field_of_set_field_same; sections.
Qed.

Lemma add_header_metadata_file_path h tiff_file now :
  is_Some (h !! "General Section") ->
  field_of (add_header_metadata h tiff_file now) "General Section" "File Path"
  = Some (default (VStr (path_parent tiff_file))
                  (field_of h "General Section" "File Path")).
Proof.
  intros Hg. unfold add_header_metadata.
  set (h3 := set_field (set_field (set_field h _ _ _) _ _ _) _ _ _).
  assert (H3 : field_of h3 "General Section" "File Path"
               = field_of h "General Section" "File Path").
  { unfold h3. now repeat other_field. }
  assert (Hs : is_Some (h3 !! "General Section")) by (unfold h3; sections).
  destruct Hs as [general Hgen]. rewrite Hgen.
  unfold field_of in H3 at 1. rewrite Hgen in H3. simpl in H3.
  destruct (general !! "File Path") as [x|] eqn:Hx.
  - rewrite <- H3. simpl. unfold field_of. rewrite Hgen. exact Hx.
  - rewrite <- H3. simpl. apply field_of_set_field_same.
    exists general. exact Hgen.
Qed.

Lemma add_header_metadata_frame h tiff_file now section field :
  (section = "General Section" ->
   ~ In field ["Header Type"; "Version"; "Time Stamp"; "File Path"]) ->
  field_of (add_header_metadata h tiff_file now) section field
  = field_of h section field.
Proof.
  intros Hother.
  assert (Hne : forall name,
             In name ["Header Type"; "Version"; "Time Stamp"; "File Path"] ->
             ("General Section", name) <> (section, field)).
  { intros name Hin [= <- <-]. now apply Hother. }
  destruct (add_header_metadata_cases h tiff_file now) as [-> | ->];
    repeat (rewrite field_of_set_field_ne by (apply Hne; simpl; tauto));
    reflexivity.
Qed.

Lemma add_header_metadata_sections h tiff_file now section :
  is_Some (add_header_metadata h tiff_file now !! section) <-> is_Some (h !! section).
Proof.
  destruct (add_header_metadata_cases h tiff_file now) as [-> | ->];
    now rewrite !set_field_section_some.
Qed.

End HeaderMetadata.

(** C7. Once the mappings are processed, [generate_fa40_header] sets
    Header Type, Version and Time Stamp of the General Section to the two
    constants and the current time, whatever the mappings stored there;
    it sets File Path to the directory of the input file when the
    mappings stored none and keeps the stored one otherwise; every other
    field of every section, and the set of sections, is as the mappings
    left it. *)
Theorem header_metadata_overwrites_three_fields
    (connector : connector) (metadata : list (key * Py.value))
    (tiff_file now : string) (mapped : gmap string (gmap string Py.value)) :
  mapped_header connector metadata = Ok mapped ->
  exists header,
    generate_fa40_header connector metadata tiff_file now = Ok header
    /\ field_of header "General Section" "Header Type"
       = Some (VStr "FA4.0 standardized header")
    /\ field_of header "General Section" "Version" = Some (VStr "v1.0")
    /\ field_of header "General Section" "Time Stamp" = Some (VStr now)
    /\ (field_of mapped "General Section" "File Path" = None ->
        field_of header "General Section" "File Path"
        = Some (VStr (path_parent tiff_file)))
    /\ (forall v, field_of mapped "General Section" "File Path" = Some v ->
                  field_of header "General Section" "File Path" = Some v)
    /\ (forall section field,
          (section = "General Section" ->
           ~ In field ["Header Type"; "Version"; "Time Stamp"; "File Path"]) ->
          field_of header section field = field_of mapped section field)
    /\ (forall section, is_Some (header !! section) <-> is_Some (mapped !! section)).
Proof.
  intros Hm. unfold generate_fa40_header. rewrite Hm. simpl.
  pose proof (mapped_header_general _ _ _ Hm) as Hg.
  eexists. split; [reflexivity|].
  destruct (add_header_metadata_three mapped tiff_file now Hg) as (H1 & H2 & H3).
  pose proof (add_header_metadata_file_path mapped tiff_file now Hg) as H4.
  repeat split; try assumption.
  - intros Hnone. now rewrite H4, Hnone.
  - intros v Hv. now rewrite H4, Hv.
  - intros section field. apply add_header_metadata_frame.
  - apply add_header_metadata_sections.
  - apply add_header_metadata_sections.
Qed.

Lemma header_metadata_overwrites_three_fields_witness :
  exists header,
    generate_fa40_header overwriting_connector
      [(KStr "tool_version", VStr "v9"); (KStr "software", VStr "SemiShop")]
      "/test/sample.tif" "2023-10-15T14:30:25" = Ok header
    /\ field_of header "General Section" "Version" = Some (VStr "v1.0")
    /\ field_of header "General Section" "File Path" = Some (VStr "/test")
    /\ field_of header "General Section" "Software" = Some (VStr "SemiShop").
Proof.
  destruct (header_metadata_overwrites_three_fields overwriting_connector
              [(KStr "tool_version", VStr "v9"); (KStr "software", VStr "SemiShop")]
              "/test/sample.tif" "2023-10-15T14:30:25"
              (set_field (set_field fa40_header_init "General Section" "Version"
                            (VStr "v9"))
                 "General Section" "Software" (VStr "SemiShop")))
    as (header & Hrun & _ & Hversion & _ & Hpath & _ & Hframe & _).
  - reflexivity.
  - exists header. split; [exact Hrun|]. split; [exact Hversion|]. split.
    + apply Hpath. vm_compute. reflexivity.
    + rewrite Hframe.
      * vm_compute. reflexivity.
      * intros _. simpl. intros [H|[H|[H|[H|[]]]]]; discriminate.
Defined.

Lemma generated_fields (connector : connector) (metadata : list (key * Py.value))
    (tiff_file now : string) (header : gmap string (gmap string Py.value))
    (section field : string) :
  generate_fa40_header connector metadata tiff_file now = Ok header ->
  is_Some (field_of header section field) ->
  ~ injected section field ->
  declared connector section field.
Proof.
  unfold generate_fa40_header.
  destruct (mapped_header connector metadata) as [mapped|e] eqn:Hm; simpl;
    [|discriminate].
  intros [= <-] Hsome Hinj.
  rewrite add_header_metadata_frame in Hsome.
  - exact (mapped_header_fields _ _ _ _ _ Hm Hsome).
  - intros -> Hin. apply Hinj. now split.
Qed.

(** C5 (as amended). When every required and optional path has a point,
    [validate_header] returns a report; a path is in [missing_required]
    exactly when it is required and not present, and in
    [present_optional] exactly when it is optional and present, where
    present means that the header has the field under the section the
    token maps to (an unknown token standing for itself).  The field
    definitions play no part.  In a header assembled from the same
    connector, a path whose field no definition declares is not present,
    unless it names one of the four fields the assembler adds itself. *)
Theorem validate_header_reports_presence
    (connector : connector) (v : validation_spec)
    (header : gmap string (gmap string Py.value)) :
  validation connector = Some v ->
  (forall field_path,
      In field_path (required_fields v ++ optional_fields v)%list ->
      contains_char "." field_path = true) ->
  exists report,
    validate_header connector header = Ok report
    /\ (forall field_path,
          In field_path (missing_required report) <->
          In field_path (required_fields v) /\ ~ path_present header field_path)
    /\ (forall field_path,
          In field_path (present_optional report) <->
          In field_path (optional_fields v) /\ path_present header field_path)
    /\ (forall metadata tiff_file now field_path section field,
          generate_fa40_header connector metadata tiff_file now = Ok header ->
          split_once "." field_path = [section; field] ->
          ~ declared connector (section_map section) field ->
          ~ injected (section_map section) field ->
          ~ path_present header field_path).
Proof.
  intros Hv Hall. rewrite (validate_header_spec header connector v Hv).
  assert (H : forallb dotted (required_fields v ++ optional_fields v)%list = true)
    by (apply forallb_forall; exact Hall).
  rewrite H. eexists. split; [reflexivity|]. simpl. repeat apply conj.
  - intros field_path. rewrite filter_In. split.
    + intros [Hin Hp]. split; [exact Hin|]. intros Hpres.
      apply path_presentb_spec in Hpres. rewrite Hpres in Hp. discriminate.
    + intros [Hin Hp]. split; [exact Hin|].
      destruct (path_presentb header field_path) eqn:E; [|reflexivity].
      apply path_presentb_spec in E. contradiction.
  - intros field_path. rewrite filter_In, path_presentb_spec. reflexivity.
  - intros metadata tiff_file now field_path section field Hgen Hsplit Hdecl Hinj
           (section' & field' & Hsplit' & Hsome).
    rewrite Hsplit in Hsplit'. injection Hsplit' as <- <-.
    apply Hdecl. exact (generated_fields _ _ _ _ _ _ _ Hgen Hsome Hinj).
Qed.

Lemma validate_header_reports_presence_witness :
  exists report,
    validate_header sample_connector
      (set_field fa40_header_init "General Section" "File Name" (VStr "test.tif"))
    = Ok report
    /\ (In "general_section.Image Width" (missing_required report) <->
        In "general_section.Image Width"
           ["general_section.File Name"; "general_section.Image Width"]
        /\ ~ path_present
               (set_field fa40_header_init "General Section" "File Name"
                  (VStr "test.tif"))
               "general_section.Image Width").
Proof.
  destruct (validate_header_reports_presence sample_connector
              (mk_validation
                 ["general_section.File Name"; "general_section.Image Width"]
                 ["general_section.Software"])
              (set_field fa40_header_init "General Section" "File Name"
                 (VStr "test.tif")))
    as (report & Hrun & Hmissing & _).
  - reflexivity.
  - intros p [<-|[<-|[<-|[]]]]; reflexivity.
  - exists report. split; [exact Hrun|]. apply Hmissing.
Defined.

(** The required path [general_section.Version] names a field that no
    definition of the connector declares; in the header assembled from
    that connector the field is there all the same, so the path is not
    reported as missing, and the like-wise undeclared optional path
    [general_section.Header Type] is reported as present. *)
Lemma undeclared_field_reported_present :
  exists header report,
    generate_fa40_header bare_connector [] "/test/sample.tif"
      "2023-10-15T14:30:25" = Ok header
    /\ validate_header bare_connector header = Ok report
    /\ ~ declared bare_connector "General Section" "Version"
    /\ ~ declared bare_connector "General Section" "Header Type"
    /\ ~ In "general_section.Version" (missing_required report)
    /\ In "general_section.Header Type" (present_optional report).
Proof.
  eexists. eexists. split; [vm_compute; reflexivity|].
  split; [vm_compute; reflexivity|].
  assert (Hd : forall field, ~ declared bare_connector "General Section" field).
  { intros field (n & f & [[= <- <-]|[]] & _ & []). }
  repeat split; try apply Hd.
  - intros [].
  - simpl. tauto.
Qed.

(** ** The field resolver *)

Section FieldResolver.

Variable metadata : list (key * Py.value).
Variable field_config : field_config.







Lemma source_value_shaped (source : string) :
  extractor_shaped metadata -> exists raw, source_value metadata source = Ok raw.
Proof.
  intros ((p & Hp) & (size & Hsize) & Hpillow). unfold source_value.
  destruct (String.eqb source "filename"); [rewrite Hp; eauto|].
  destruct (String.eqb source "file_size"); [rewrite Hsize; eauto|].
  destruct (String.eqb source "format"); [|eauto].
  unfold get_or_empty at 1.
  destruct (dict_get (KStr "pillow") metadata) as [pillow|] eqn:Epillow; simpl.
  - destruct (Hpillow pillow eq_refl) as (d & -> & Hinfo). simpl.
    destruct (dict_get (KStr "basic_info") d) as [info|] eqn:Einfo; simpl;
      [|eauto].
    destruct (Hinfo info eq_refl) as (i & ->). eauto.
  - eauto.
Qed.

Lemma resolve_sources_total (sources : list string) :
  (forall s, In s sources -> exists raw, source_value metadata s = Ok raw) ->
  exists final, resolve_sources metadata field_config sources = Ok final.
Proof.
  induction sources as [|s sources IH]; intros Hall; [now eexists|].
  simpl. destruct (Hall s) as (raw & ->); [now left|]. simpl.
  assert (Hrest : exists final,
             resolve_sources metadata field_config sources = Ok final).
  { apply IH. intros s' Hs'. apply Hall. now right. }
  destruct (is_none _); [exact Hrest|].
  destruct (is_none _); [exact Hrest|]. now eexists.
Qed.

End FieldResolver.



(** ** Resolution to pixel size *)

Section PixelSize.

Lemma number_of_text_cases (v : Py.value) :
  number_of_text v = VNone
  \/ (exists n, number_of_text v = VInt n)
  \/ (exists f, number_of_text v = VFloat f).
Proof.
  unfold number_of_text. destruct v; auto.
  destruct (first_number s) as [text|]; auto.
  destruct (contains_char "." text); eauto.
Qed.

(** [_parse_first_number] gives a number or [None]. *)
Lemma parse_first_number_cases (v : Py.value) :
  _parse_first_number v = VNone \/ is_number (_parse_first_number v) = true.
Proof.
  assert (H : forall x, number_of_text x = VNone
                        \/ is_number (number_of_text x) = true).
  { intros x. destruct (number_of_text_cases x) as [->|[[n ->]|[f ->]]]; auto. }
  unfold _parse_first_number. destruct (is_number v) eqn:E; [now right|].
  destruct v as [| | | | |[|x l]|[|x l]|]; try apply H;
    destruct (is_number x) eqn:Ex; auto.
Qed.

End PixelSize.

(** C8. [_resolution_to_pixel_size] is a total function; the value parses
    to [None] or to a number.  It gives [None] when the value parses to
    no number, to an [int] that is zero or
    negative, or to a [float] that is not greater than zero (zero,
    negative, or not a number).  For a number greater than zero it gives
    25400000 divided by it, rounded to two decimal places.  96 gives
    264583.33 and 72 gives 352777.78. *)
Theorem resolution_to_pixel_size_spec (value : Py.value) :
  (_parse_first_number value = VNone
   \/ is_number (_parse_first_number value) = true)
  /\ (_parse_first_number value = VNone -> _resolution_to_pixel_size value = VNone)
  /\ (forall n, _parse_first_number value = VInt n -> (n <= 0)%Z ->
                _resolution_to_pixel_size value = VNone)
  /\ (forall f, _parse_first_number value = VFloat f ->
                SFltb (S754_zero false) f = false ->
                _resolution_to_pixel_size value = VNone)
  /\ (_parse_first_number value = VBool false ->
      _resolution_to_pixel_size value = VNone)
  /\ (forall n, _parse_first_number value = VInt n -> (0 < n)%Z ->
                _resolution_to_pixel_size value
                = VFloat (Float.round2 (Float.of_ratio false 25400000 n)))
  /\ (forall f, _parse_first_number value = VFloat f ->
                SFltb (S754_zero false) f = true ->
                _resolution_to_pixel_size value
                = VFloat (Float.round2 (Float.div (Float.of_Z 25400000) f)))
  /\ (_parse_first_number value = VBool true ->
      _resolution_to_pixel_size value
      = VFloat (Float.round2 (Float.of_Z 25400000)))
  /\ _resolution_to_pixel_size (VInt 96) = VFloat (float_of_text "264583.33")
  /\ _resolution_to_pixel_size (VInt 72) = VFloat (float_of_text "352777.78").
Proof.
  unfold _resolution_to_pixel_size. repeat apply conj.
  - apply parse_first_number_cases.
  - intros ->. reflexivity.
  - intros n -> Hn. simpl.
    assert (E : (0 <? n)%Z = false) by (apply Z.ltb_ge; exact Hn).
    rewrite E. now rewrite andb_false_r.
  - intros f -> Hf. simpl greater_than_zero. rewrite Hf. now rewrite andb_false_r.
  - intros ->. reflexivity.
  - intros n -> Hn. simpl.
    assert (E : (0 <? n)%Z = true) by (apply Z.ltb_lt; exact Hn).
    assert (E' : (n =? 0)%Z = false) by (apply Z.eqb_neq; lia).
    rewrite E, E'. reflexivity.
  - intros f -> Hf. simpl greater_than_zero. rewrite Hf.
    destruct f as [s|s| |s m e]; try discriminate; reflexivity.
  - intros ->. reflexivity.
  - vm_compute. reflexivity.
  - vm_compute. reflexivity.
Qed.

Lemma resolution_to_pixel_size_spec_witness :
  _resolution_to_pixel_size (VStr "Resolution: 300 DPI")
  = VFloat (Float.round2 (Float.of_ratio false 25400000 300))
  /\ _resolution_to_pixel_size (VTuple [VInt (-96); VInt 1]) = VNone
  /\ _resolution_to_pixel_size (VStr "no number") = VNone.
Proof.
  split; [|split].
  - destruct (resolution_to_pixel_size_spec (VStr "Resolution: 300 DPI"))
      as (_ & _ & _ & _ & _ & Hpos & _).
    apply Hpos; [reflexivity|lia].
  - destruct (resolution_to_pixel_size_spec (VTuple [VInt (-96); VInt 1]))
      as (_ & _ & Hneg & _).
    apply (Hneg (-96)%Z); [reflexivity|lia].
  - destruct (resolution_to_pixel_size_spec (VStr "no number")) as (_ & Hnone & _).
    apply Hnone. reflexivity.
Defined.

(** ** Dates *)

Section Dates.

Lemma try_formats_first (s : string) (pre post : list string) (fmt : string)
    (dt : datetime) :
  (forall f, In f pre -> strptime s f = None) ->
  strptime s fmt = Some dt ->
  try_formats s (pre ++ fmt :: post) = Some (isoformat dt).
Proof.
  intros Hpre Hfmt. induction pre as [|f pre IH]; simpl.
  - now rewrite Hfmt.
  - rewrite (Hpre f) by now left. apply IH. intros f' Hf'. apply Hpre. now right.
Qed.

Lemma try_formats_none (s : string) (fmts : list string) :
  (forall f, In f fmts -> strptime s f = None) -> try_formats s fmts = None.
Proof.
  induction fmts as [|f fmts IH]; intros H; simpl; [reflexivity|].
  rewrite (H f) by now left. apply IH. intros f' Hf'. apply H. now right.
Qed.

(** A match captures text only for the directives of the format. *)
Lemma match_tokens_keys (ts : list token) :
  forall s caps r d m,
    In (caps, r) (match_tokens ts s) -> In (d, m) caps -> In (Directive d) ts.
Proof.
  induction ts as [|t ts IH]; intros s caps r d m; simpl.
  - intros [[= <- <-]|[]] [].
  - destruct t as [d'| |c].
    + intros Hin Hcap. apply in_flat_map in Hin as (alt & _ & Hin).
      destruct (match_classes alt s) as [[m' r']|]; [|destruct Hin].
      apply in_map_iff in Hin as ([caps' r''] & [= <- <-] & Hin).
      destruct Hcap as [[= -> ->]|Hcap]; [now left|].
      right. exact (IH _ _ _ _ _ Hin Hcap).
    + intros Hin Hcap. apply in_flat_map in Hin as (s' & _ & Hin).
      right. exact (IH _ _ _ _ _ Hin Hcap).
    + destruct s as [|c' s']; [intros []|].
      destruct (Ascii.eqb _ _); [|intros []].
      intros Hin Hcap. right. exact (IH _ _ _ _ _ Hin Hcap).
Qed.

Lemma capture_absent (d : ascii) (caps : list (ascii * string)) (default : Z) :
  (forall m, ~ In (d, m) caps) -> capture d caps default = default.
Proof.
  induction caps as [|[d' m'] caps IH]; intros H; simpl; [reflexivity|].
  destruct (Ascii.eqb_spec d d') as [->|_].
  - destruct (H m'). now left.
  - apply IH. intros m Hm. apply (H m). now right.
Qed.

(** A format without [%H], [%M] and [%S] gives midnight. *)
Lemma strptime_date_only (s fmt : string) (dt : datetime) :
  ~ In (Directive "H") (tokens fmt) ->
  ~ In (Directive "M") (tokens fmt) ->
  ~ In (Directive "S") (tokens fmt) ->
  strptime s fmt = Some dt ->
  hour dt = 0%Z /\ minute dt = 0%Z /\ second dt = 0%Z.
Proof.
  intros HH HM HS. unfold strptime.
  destruct (match_tokens (tokens fmt) s) as [|[caps [|c r]] l] eqn:E;
    try discriminate.
  assert (Hkeys : forall d m, In (d, m) caps -> In (Directive d) (tokens fmt)).
  { intros d m. apply (match_tokens_keys _ s caps EmptyString). rewrite E. now left. }
  destruct (valid_datetime _); [|discriminate].
  intros [= <-]. simpl.
  repeat split; apply capture_absent; intros m Hm; apply Hkeys in Hm; contradiction.
Qed.

End Dates.

(** C4 (as amended).  [_datetime_to_iso8601] is a total function.  It
    gives [None] for a false value and when the value resolves to the
    empty string.  Otherwise it tries ["%Y:%m:%d %H:%M:%S"], only when the
    string has a colon and a space, then ["%Y-%m-%d %H:%M:%S"],
    ["%Y/%m/%d %H:%M:%S"], ["%Y-%m-%dT%H:%M:%S"], ["%Y-%m-%d"] and
    ["%Y:%m:%d"] in this order; the first that parses gives the result,
    always in the full form YYYY-MM-DDTHH:MM:SS, the time of day being
    00:00:00 for the two formats without one; when none parses the
    string is returned as it is. *)
Theorem datetime_to_iso8601_spec (value : Py.value) :
  (truthy value = false -> _datetime_to_iso8601 value = VNone)
  /\ (_get_first_valid_string value = "" -> _datetime_to_iso8601 value = VNone)
  /\ (truthy value = true -> _get_first_valid_string value <> "" ->
      let s := _get_first_valid_string value in
      let tried := contains_char ":" s && contains_char " " s in
      (forall dt,
          tried = true -> strptime s "%Y:%m:%d %H:%M:%S" = Some dt ->
          _datetime_to_iso8601 value = VStr (isoformat dt))
      /\ (forall pre fmt post dt,
             ["%Y-%m-%d %H:%M:%S"; "%Y/%m/%d %H:%M:%S"; "%Y-%m-%dT%H:%M:%S";
              "%Y-%m-%d"; "%Y:%m:%d"] = (pre ++ fmt :: post)%list ->
             tried = false \/ strptime s "%Y:%m:%d %H:%M:%S" = None ->
             (forall f, In f pre -> strptime s f = None) ->
             strptime s fmt = Some dt ->
             _datetime_to_iso8601 value = VStr (isoformat dt))
      /\ (tried = false \/ strptime s "%Y:%m:%d %H:%M:%S" = None ->
          (forall f,
              In f ["%Y-%m-%d %H:%M:%S"; "%Y/%m/%d %H:%M:%S";
                    "%Y-%m-%dT%H:%M:%S"; "%Y-%m-%d"; "%Y:%m:%d"] ->
              strptime s f = None) ->
          _datetime_to_iso8601 value = VStr s))
  /\ (forall s fmt dt,
         In fmt ["%Y-%m-%d"; "%Y:%m:%d"] -> strptime s fmt = Some dt ->
         isoformat dt
         = pad 4 (year dt) +:+ "-" +:+ pad 2 (month dt) +:+ "-"
           +:+ pad 2 (day dt) +:+ "T00:00:00")
  /\ _datetime_to_iso8601 (VStr "2023:10:15 14:30:25") = VStr "2023-10-15T14:30:25"
  /\ _datetime_to_iso8601 (VStr "not a date") = VStr "not a date"
  /\ _datetime_to_iso8601 (VStr "2023-10-15") = VStr "2023-10-15T00:00:00".
Proof.
  repeat apply conj.
  - intros H. unfold _datetime_to_iso8601. now rewrite H.
  - intros H. unfold _datetime_to_iso8601. rewrite H.
    now destruct (truthy value).
  - intros Ht Hs s tried.
    assert (Hne : String.eqb s "" = false).
    { destruct (String.eqb_spec s ""); [contradiction|reflexivity]. }
    assert (Hskip : tried = false \/ strptime s "%Y:%m:%d %H:%M:%S" = None ->
                    (if tried then strptime s tiff_format else None) = None).
    { intros [->| H]; [reflexivity|]. destruct tried; [exact H|reflexivity]. }
    unfold _datetime_to_iso8601. rewrite Ht. fold s. rewrite Hne. simpl negb.
    cbv iota. fold tried. repeat apply conj.
    + intros dt -> Hdt. unfold tiff_format. now rewrite Hdt.
    + intros pre fmt post dt Hfmts Hno Hpre Hdt.
      rewrite (Hskip Hno). unfold formats. rewrite Hfmts.
      now rewrite (try_formats_first s pre post fmt dt Hpre Hdt).
    + intros Hno Hall. rewrite (Hskip Hno).
      now rewrite (try_formats_none s formats Hall).
  - intros s fmt dt Hfmt Hdt.
    assert (H : hour dt = 0%Z /\ minute dt = 0%Z /\ second dt = 0%Z).
    { destruct Hfmt as [<-|[<-|[]]];
        apply (strptime_date_only _ _ _) in Hdt; try exact Hdt;
        simpl; intros H; repeat (destruct H as [H|H]; [discriminate|]);
        destruct H. }
    destruct H as (HH & HM & HS). unfold isoformat. rewrite HH, HM, HS.
    reflexivity.
  - vm_compute. reflexivity.
  - vm_compute. reflexivity.
  - vm_compute. reflexivity.
Qed.

Lemma datetime_to_iso8601_spec_witness :
  _datetime_to_iso8601 (VTuple [VStr "2023/10/15 14:30:25"; VStr "x"])
  = VStr "2023-10-15T14:30:25"
  /\ _datetime_to_iso8601 (VStr "") = VNone.
Proof.
  split.
  - destruct (datetime_to_iso8601_spec (VTuple [VStr "2023/10/15 14:30:25"; VStr "x"]))
      as (_ & _ & Hparse & _).
    destruct Hparse as (_ & Hfirst & _); [reflexivity|discriminate|].
    apply (Hfirst ["%Y-%m-%d %H:%M:%S"] "%Y/%m/%d %H:%M:%S"
             ["%Y-%m-%dT%H:%M:%S"; "%Y-%m-%d"; "%Y:%m:%d"]
             (mk_datetime 2023 10 15 14 30 25)).
    + reflexivity.
    + right. vm_compute. reflexivity.
    + intros f [<-|[]]. vm_compute. reflexivity.
    + vm_compute. reflexivity.
  - destruct (datetime_to_iso8601_spec (VStr "")) as (Hfalse & _).
    apply Hfalse. reflexivity.
Defined.

(** For a date without a time of day the result carries the time
    00:00:00; it is not the date alone. *)
Lemma datetime_to_iso8601_keeps_time_of_day :
  _datetime_to_iso8601 (VStr "2023-10-15") = VStr "2023-10-15T00:00:00"
  /\ _datetime_to_iso8601 (VStr "2023-10-15") <> VStr "2023-10-15".
Proof. split; [vm_compute; reflexivity|vm_compute; discriminate]. Qed.

(** The first format is tried only for a string with a colon and a space.
    With a no-break space (code 160) between date and time the format
    would parse, white space in a format standing for any run of white
    space, but it is not tried and the string comes back as it is. *)
Remark tiff_format_needs_a_space :
  let s := "2023:10:15" +:+ String (ascii_of_N 160) "14:30:25" in
  strptime s "%Y:%m:%d %H:%M:%S" = Some (mk_datetime 2023 10 15 14 30 25)
  /\ _datetime_to_iso8601 (VStr s) = VStr s.
Proof. split; vm_compute; reflexivity. Qed.

(** ** Numbers written as text *)

Section NumberText.

Lemma append_cons (c : ascii) (a b : string) :
  String c a +:+ b = String c (a +:+ b).
Proof. reflexivity. Qed.

Lemma append_nil (b : string) : "" +:+ b = b.
Proof. reflexivity. Qed.

Lemma append_empty (s : string) : s +:+ "" = s.
Proof.
  induction s as [|c s IH]; [reflexivity|]. rewrite append_cons. now rewrite IH.
Qed.



















End NumberText.




(** * Further properties of the code *)

(** ** Cleaning strings *)

Section CleanString.

Lemma str_filter_forall (f : ascii -> bool) (s : string) :
  str_forall f (str_filter f s) = true.
Proof.
  induction s as [|c s IH]; simpl; [reflexivity|].
  destruct (f c) eqn:E; simpl; [now rewrite E|exact IH].
Qed.

Lemma str_filter_id (f : ascii -> bool) (s : string) :
  str_forall f s = true -> str_filter f s = s.
Proof.
  induction s as [|c s IH]; simpl; [reflexivity|].
  intros H. apply andb_true_iff in H as [Hc Hs]. now rewrite Hc, (IH Hs).
Qed.

Lemma lstrip_forall (f : ascii -> bool) (s : string) :
  str_forall f s = true -> str_forall f (lstrip s) = true.
Proof.
  induction s as [|c s IH]; simpl; [reflexivity|].
  intros H. destruct (is_space c); [|exact H].
  apply andb_true_iff in H as [_ Hs]. exact (IH Hs).
Qed.

Lemma rstrip_forall (f : ascii -> bool) (s : string) :
  str_forall f s = true -> str_forall f (rstrip s) = true.
Proof.
  induction s as [|c s IH]; simpl; [reflexivity|].
  intros H. apply andb_true_iff in H as [Hc Hs]. specialize (IH Hs).
  destruct (rstrip s) as [|c' r].
  - destruct (is_space c); simpl; [reflexivity|now rewrite Hc].
  - simpl in *. now rewrite Hc.
Qed.

Lemma lstrip_no_leading_space (s : string) : no_leading_space (lstrip s).
Proof.
  induction s as [|c s IH]; simpl; [exact I|].
  destruct (is_space c) eqn:E; [exact IH|exact E].
Qed.

Lemma lstrip_id (s : string) : no_leading_space s -> lstrip s = s.
Proof. destruct s as [|c s]; simpl; [reflexivity|]. now intros ->. Qed.

Lemma rstrip_no_leading_space (s : string) :
  no_leading_space s -> no_leading_space (rstrip s).
Proof.
  destruct s as [|c s]; simpl; [auto|]. intros Hc.
  destruct (rstrip s); [now rewrite Hc|exact Hc].
Qed.

Lemma rstrip_idempotent (s : string) : rstrip (rstrip s) = rstrip s.
Proof.
  induction s as [|c s IH]; simpl; [reflexivity|].
  destruct (rstrip s) as [|c' r] eqn:E.
  - destruct (is_space c) eqn:Hc; simpl; [reflexivity|now rewrite Hc].
  - change (rstrip (String c (String c' r))) with
      (match rstrip (String c' r) with
       | EmptyString => if is_space c then EmptyString else String c EmptyString
       | r' => String c r'
       end).
    now rewrite IH.
Qed.

Lemma strip_idempotent (s : string) : strip (strip s) = strip s.
Proof.
  unfold strip.
  rewrite (lstrip_id (rstrip (lstrip s)))
    by (apply rstrip_no_leading_space, lstrip_no_leading_space).
  apply rstrip_idempotent.
Qed.

Lemma clean_string_forall (s : string) :
  str_forall not_control (_clean_string (VStr s)) = true.
Proof.
  cbn [_clean_string]. fold not_control. unfold strip.
  apply rstrip_forall, lstrip_forall, str_filter_forall.
Qed.

Lemma clean_string_idempotent (s : string) :
  _clean_string (VStr (_clean_string (VStr s))) = _clean_string (VStr s).
Proof.
  pose proof (clean_string_forall s) as H. revert H.
  cbn [_clean_string]. fold not_control. intros H.
  rewrite (str_filter_id _ _ H). apply strip_idempotent.
Qed.

End CleanString.

(** X1. A cleaned string has no control character (codes 0-31 and
    127-159) and no white space at either end, and cleaning it again
    changes nothing; a tuple is cleaned as its first element. *)
Theorem clean_string_is_clean_and_idempotent (s : string) (l : list Py.value) :
  str_forall not_control (_clean_string (VStr s)) = true
  /\ strip (_clean_string (VStr s)) = _clean_string (VStr s)
  /\ _clean_string (VStr (_clean_string (VStr s))) = _clean_string (VStr s)
  /\ _clean_string (VTuple (VStr s :: l)) = _clean_string (VStr s).
Proof.
  repeat apply conj.
  - apply clean_string_forall.
  - cbn [_clean_string]. apply strip_idempotent.
  - apply clean_string_idempotent.
  - reflexivity.
Qed.

(** X2. [_get_first_valid_string] gives what [_clean_string] gives on
    every value but a list; a list is read as the tuple of its elements. *)
Theorem first_valid_string_is_clean_string (value : Py.value) :
  ((forall l, value <> VList l) ->
   _get_first_valid_string value = _clean_string value)
  /\ (forall l, _get_first_valid_string (VList l)
                = match l with
                  | [] => "[]"
                  | _ => _clean_string (VTuple l)
                  end).
Proof.
  split.
  - intros Hlist. destruct value as [| | | | |[|x l]|l|]; try reflexivity.
    + destruct x; reflexivity.
    + now destruct (Hlist l).
  - intros [|x l]; [reflexivity|]. destruct x; reflexivity.
Qed.

Lemma first_valid_string_is_clean_string_witness :
  _get_first_valid_string (VTuple [VStr " SemiShop "; VInt 2])
  = _clean_string (VTuple [VStr " SemiShop "; VInt 2]).
Proof.
  apply (proj1 (first_valid_string_is_clean_string
                  (VTuple [VStr " SemiShop "; VInt 2]))).
  intros l. discriminate.
Defined.

(** ** Colour modes *)

Section ColorMode.

Lemma lower_char_control (c : ascii) : is_control (lower_char c) = is_control c.
Proof. destruct c as [[] [] [] [] [] [] [] []]; reflexivity. Qed.

Lemma lower_char_space (c : ascii) : is_space (lower_char c) = is_space c.
Proof. destruct c as [[] [] [] [] [] [] [] []]; reflexivity. Qed.

Lemma lower_char_idempotent (c : ascii) : lower_char (lower_char c) = lower_char c.
Proof. destruct c as [[] [] [] [] [] [] [] []]; reflexivity. Qed.

Lemma lower_idempotent (s : string) : lower (lower s) = lower s.
Proof.
  unfold lower. induction s as [|c s IH]; cbn [str_map]; [reflexivity|].
  now rewrite lower_char_idempotent, IH.
Qed.

Lemma lower_char_not_control (c : ascii) :
  not_control (lower_char c) = not_control c.
Proof. unfold not_control. now rewrite lower_char_control. Qed.

Lemma lower_filter (s : string) :
  str_filter not_control (lower s) = lower (str_filter not_control s).
Proof.
  unfold lower. induction s as [|c s IH]; cbn [str_map str_filter]; [reflexivity|].
  rewrite lower_char_not_control.
  destruct (not_control c); cbn [str_map]; now rewrite IH.
Qed.

Lemma lower_lstrip (s : string) : lstrip (lower s) = lower (lstrip s).
Proof.
  unfold lower. induction s as [|c s IH]; cbn [str_map lstrip]; [reflexivity|].
  rewrite lower_char_space. destruct (is_space c); [exact IH|reflexivity].
Qed.

Lemma lower_rstrip (s : string) : rstrip (lower s) = lower (rstrip s).
Proof.
  unfold lower. induction s as [|c s IH]; cbn [str_map rstrip]; [reflexivity|].
  rewrite IH, lower_char_space.
  destruct (rstrip s); cbn [str_map]; [destruct (is_space c)|]; reflexivity.
Qed.

(** Lower-casing and cleaning can be done in either order. *)
Lemma lower_clean (s : string) :
  lower (_clean_string (VStr s)) = _clean_string (VStr (lower s)).
Proof.
  cbn [_clean_string]. fold not_control. unfold strip.
  now rewrite lower_filter, lower_lstrip, lower_rstrip.
Qed.

Lemma assoc_values (k v : string) (l : list (string * string)) :
  assoc k l = Some v -> In v (List.map snd l).
Proof.
  induction l as [|[k' v'] l IH]; simpl; [discriminate|].
  destruct (String.eqb k k'); [intros [= ->]; now left|auto].
Qed.

End ColorMode.

(** X3. [_normalize_color_mode] does not see the case of its input: two
    strings with the same lower-case form give the same mode.  The result
    is one of grayscale, rgb, cmyk, palette, or else the cleaned input in
    lower case, and normalizing a result gives it back. *)
Theorem normalize_color_mode_ignores_case (s : string) :
  (forall t, lower s = lower t ->
             _normalize_color_mode (VStr s) = _normalize_color_mode (VStr t))
  /\ (In (_normalize_color_mode (VStr s)) color_modes
      \/ _normalize_color_mode (VStr s) = lower (_clean_string (VStr s)))
  /\ _normalize_color_mode (VStr (_normalize_color_mode (VStr s)))
     = _normalize_color_mode (VStr s).
Proof.
  assert (Hdef : forall u, _normalize_color_mode (VStr u)
                           = default (_clean_string (VStr (lower u)))
                               (assoc (_clean_string (VStr (lower u))) mode_map)).
  { intros u. unfold _normalize_color_mode. cbn [_get_first_valid_string].
    now rewrite lower_clean. }
  repeat apply conj.
  - intros t Ht. now rewrite !Hdef, Ht.
  - rewrite Hdef, <- lower_clean.
    destruct (assoc _ mode_map) as [v|] eqn:E; [left|now right].
    apply assoc_values in E. simpl in *. unfold color_modes. simpl. tauto.
  - rewrite (Hdef s).
    destruct (assoc _ mode_map) as [v|] eqn:E; simpl.
    + apply assoc_values in E. simpl in E.
      repeat (destruct E as [<-|E]; [reflexivity|]). destruct E.
    + rewrite Hdef, <- !lower_clean, lower_idempotent.
      rewrite <- lower_clean in E.
      assert (Hcc : _clean_string (VStr (lower (_clean_string (VStr s))))
                    = lower (_clean_string (VStr s))).
      { now rewrite <- lower_clean, clean_string_idempotent. }
      rewrite lower_clean, Hcc, E. reflexivity.
Qed.

Lemma normalize_color_mode_ignores_case_witness :
  _normalize_color_mode (VStr "GrayScale") = _normalize_color_mode (VStr "GRAYSCALE").
Proof.
  apply (proj1 (normalize_color_mode_ignores_case "GrayScale")). reflexivity.
Defined.

(** ** Numbers and paths *)

(** X4. Parsing a number twice is parsing it once: the result of
    [_parse_first_number] is [None] or a number, and both are returned as
    they are.  So the extraction [first_available_numeric] after the
    transformation of the same name changes nothing. *)
Theorem parse_first_number_idempotent (value : Py.value) :
  _parse_first_number (_parse_first_number value) = _parse_first_number value
  /\ apply_extraction (apply_transformation value "first_available_numeric")
       "first_available_numeric"
     = apply_transformation value "first_available_numeric".
Proof.
  assert (H : _parse_first_number (_parse_first_number value)
              = _parse_first_number value).
  { destruct (parse_first_number_cases value) as [E|E].
    - rewrite E. reflexivity.
    - unfold _parse_first_number at 1. now rewrite E. }
  split; [exact H|]. exact H.
Qed.

(** ** Paths *)

Section Paths.

Lemma split_on_nonempty (sep : ascii) (s : string) : split_on sep s <> [].
Proof.
  destruct s as [|c s]; simpl; [discriminate|].
  destruct (Ascii.eqb c sep); [discriminate|].
  destruct (split_on sep s); discriminate.
Qed.

Lemma split_on_app (sep : ascii) (a b : string) :
  split_on sep (a +:+ String sep b) = (split_on sep a ++ split_on sep b)%list.
Proof.
  induction a as [|c a IH].
  - rewrite append_nil. simpl. now rewrite Ascii.eqb_refl.
  - rewrite append_cons. simpl. rewrite IH.
    destruct (Ascii.eqb c sep); [reflexivity|].
    pose proof (split_on_nonempty sep a) as Hne.
    destruct (split_on sep a) as [|p ps]; [contradiction|reflexivity].
Qed.

Lemma descend_none (parts : list string) : descend parts VNone = VNone.
Proof. destruct parts; reflexivity. Qed.

Lemma descend_app (l1 l2 : list string) (v : Py.value) :
  descend (l1 ++ l2) v = descend l2 (descend l1 v).
Proof.
  revert v. induction l1 as [|part l1 IH]; intros v; [reflexivity|].
  simpl. destruct v; try (now rewrite descend_none).
  destruct (dict_get (KStr part) d); [apply IH|now rewrite descend_none].
Qed.

End Paths.

(** X5. Looking up a path [a.b] is looking up [b] in what [a] gives: a
    prefix that is missing, or that leads to something that is not a
    mapping, gives [None] for every longer path. *)
Theorem extract_value_from_source_composes (metadata : Py.value) (a b : string) :
  extract_value_from_source metadata (a +:+ "." +:+ b)
  = extract_value_from_source (extract_value_from_source metadata a) b.
Proof.
  unfold extract_value_from_source.
  change ("." +:+ b) with (String "." b).
  rewrite split_on_app. apply descend_app.
Qed.

(** ** The assembled header *)

Section AssembledHeader.

Variable metadata : list (key * Py.value).

Implicit Types (h : gmap string (gmap string Py.value)).

Lemma resolve_field_value_shaped (field_config : field_config) :
  extractor_shaped metadata ->
  exists value, resolve_field_value metadata field_config = Ok value.
Proof.
  intros Hshape. unfold resolve_field_value. apply resolve_sources_total.
  intros s _. now apply source_value_shaped.
Qed.

Lemma process_fields_shaped target section_mappings h :
  extractor_shaped metadata ->
  exists h', process_fields metadata target section_mappings h = Ok h'.
Proof.
  intros Hshape. revert h.
  induction section_mappings as [|[name cfg] rest IH]; intros h; simpl; [eauto|].
  destruct (resolve_field_value_shaped cfg Hshape) as (value & ->). simpl.
  apply IH.
Qed.

Lemma process_mappings_shaped ms h :
  extractor_shaped metadata ->
  exists h', process_mappings metadata ms h = Ok h'.
Proof.
  intros Hshape. revert h.
  induction ms as [|[name fields] rest IH]; intros h; simpl; [eauto|].
  destruct (target_section_of name) as [target|]; [|apply IH].
  destruct (process_fields_shaped target fields h Hshape) as (h1 & ->). simpl.
  apply IH.
Qed.

Lemma init_sections (section : string) :
  is_Some (fa40_header_init !! section) <-> In section header_sections.
Proof.
  unfold fa40_header_init, header_sections. simpl. split.
  - intros Hs.
    repeat (rewrite lookup_insert in Hs; case_decide; [subst; tauto|]).
    rewrite lookup_empty in Hs. destruct Hs; discriminate.
  - intros Hin. repeat (destruct Hin as [<-|Hin]; [now eexists|]). destruct Hin.
Qed.

Lemma target_is_section (section_name target : string) :
  target_section_of section_name = Some target ->
  In target ["General Section"; "Method Specific"; "Tool Specific"]
  /\ section_map section_name = target
  /\ contains_char "." section_name = false.
Proof.
  unfold target_section_of, section_map.
  destruct (String.eqb_spec section_name "general_section") as [->|_];
    [intros [= <-]; simpl; auto|].
  destruct (String.eqb_spec section_name "method_specific") as [->|_];
    [intros [= <-]; simpl; auto|].
  destruct (String.eqb_spec section_name "tool_specific") as [->|_];
    [intros [= <-]; simpl; auto 6|discriminate].
Qed.

Lemma field_of_set_field_value h section field v section' field' v' :
  field_of (set_field h section field v) section' field' = Some v' ->
  v' = v \/ field_of h section' field' = Some v'.
Proof.
  destruct (decide ((section, field) = (section', field'))) as [[= <- <-]|E].
  - unfold field_of, set_field. rewrite lookup_alter_eq.
    destruct (h !! section) as [fields|]; simpl; [|discriminate].
    rewrite lookup_insert_eq. intros [= <-]. now left.
  - rewrite field_of_set_field_ne by exact E. now right.
Qed.

Lemma field_of_set_field_keeps h section field v section' field' :
  is_Some (field_of h section' field') ->
  is_Some (field_of (set_field h section field v) section' field').
Proof.
  intros Hsome.
  destruct (decide ((section, field) = (section', field'))) as [[= <- <-]|E].
  - unfold field_of in Hsome. destruct (h !! section) as [fields|] eqn:Hs;
      [|destruct Hsome; discriminate].
    rewrite (field_of_set_field_eq _ _ _ _ _ Hs). now eexists.
  - now rewrite field_of_set_field_ne by exact E.
Qed.

Lemma stored_value_not_none field_name field_config value :
  value <> VNone -> stored_value field_name field_config value <> VNone.
Proof.
  intros H. unfold stored_value. destruct (cfg_unit field_config); [|exact H].
  destruct (_ && _); [discriminate|exact H].
Qed.

Lemma is_none_false (v : Py.value) : is_none v = false <-> v <> VNone.
Proof. destruct v; simpl; split; congruence. Qed.

(** What [process_fields] keeps: the fields that were there, and no
    [None]. *)
Lemma process_fields_invariants target section_mappings h h' :
  process_fields metadata target section_mappings h = Ok h' ->
  (forall s f, is_Some (field_of h s f) -> is_Some (field_of h' s f))
  /\ ((forall s f v, field_of h s f = Some v -> v <> VNone) ->
      forall s f v, field_of h' s f = Some v -> v <> VNone).
Proof.
  revert h. induction section_mappings as [|[name cfg] rest IH]; intros h; simpl.
  - intros [= <-]. auto.
  - destruct (resolve_field_value metadata cfg) as [value|e]; simpl; [|discriminate].
    intros H. destruct (IH _ H) as (Hkeep & Hnone). split.
    + intros s f Hsome. apply Hkeep.
      destruct (is_none value); [exact Hsome|].
      now apply field_of_set_field_keeps.
    + intros Hh. apply Hnone. intros s f v Hv.
      destruct (is_none value) eqn:E; [exact (Hh s f v Hv)|].
      apply field_of_set_field_value in Hv as [->|Hv]; [|exact (Hh s f v Hv)].
      apply stored_value_not_none. now apply is_none_false.
Qed.

Lemma process_fields_writes target section_mappings h h' field cfg value :
  process_fields metadata target section_mappings h = Ok h' ->
  is_Some (h !! target) ->
  In (field, cfg) section_mappings ->
  resolve_field_value metadata cfg = Ok value -> value <> VNone ->
  is_Some (field_of h' target field).
Proof.
  revert h. induction section_mappings as [|[name cfg'] rest IH]; intros h; simpl.
  - intros _ _ [].
  - destruct (resolve_field_value metadata cfg') as [value'|e] eqn:Hres; simpl;
      [|discriminate].
    intros H Htarget [[= -> ->]|Hin] Hvalue Hne.
    + rewrite Hvalue in Hres. injection Hres as <-.
      apply is_none_false in Hne. rewrite Hne in H.
      apply (proj1 (process_fields_invariants _ _ _ _ H)).
      rewrite field_of_set_field_same by exact Htarget. now eexists.
    + apply (IH _ H); try assumption.
      destruct (is_none value'); [exact Htarget|].
      now apply set_field_section_some.
Qed.

Lemma process_fields_written target section_mappings h h' s f :
  process_fields metadata target section_mappings h = Ok h' ->
  is_Some (field_of h' s f) ->
  is_Some (field_of h s f)
  \/ (s = target
      /\ exists cfg value,
           In (f, cfg) section_mappings
           /\ resolve_field_value metadata cfg = Ok value /\ value <> VNone).
Proof.
  revert h. induction section_mappings as [|[name cfg] rest IH]; intros h; simpl.
  - intros [= <-]. now left.
  - destruct (resolve_field_value metadata cfg) as [value|e] eqn:Hres; simpl;
      [|discriminate].
    intros H Hf. destruct (IH _ H Hf) as [Hh|(-> & cfg' & v' & Hin & Hr & Hne)].
    + destruct (is_none value) eqn:E; [now left|].
      apply field_of_set_field in Hh as [Hh|[-> ->]]; [now left|].
      right. split; [reflexivity|]. exists cfg, value.
      split; [now left|]. split; [exact Hres|]. now apply is_none_false.
    + right. split; [reflexivity|]. exists cfg', v'. auto.
Qed.

End AssembledHeader.

Section AssembledHeaderMappings.

Variable metadata : list (key * Py.value).

Implicit Types (h : gmap string (gmap string Py.value)).

Lemma resolves_in_cons entry ms target field :
  resolves_in metadata ms target field -> resolves_in metadata (entry :: ms) target field.
Proof.
  intros (n & fs & cfg & v & Hin & H). exists n, fs, cfg, v.
  split; [now right|exact H].
Qed.

Lemma process_mappings_invariants ms h h' :
  process_mappings metadata ms h = Ok h' ->
  (forall s f, is_Some (field_of h s f) -> is_Some (field_of h' s f))
  /\ ((forall s f v, field_of h s f = Some v -> v <> VNone) ->
      forall s f v, field_of h' s f = Some v -> v <> VNone).
Proof.
  revert h. induction ms as [|[name fields] rest IH]; intros h; simpl.
  - intros [= <-]. auto.
  - destruct (target_section_of name) as [target|]; [|apply IH].
    destruct (process_fields metadata target fields h) as [h1|e] eqn:H1; simpl;
      [|discriminate].
    intros H. destruct (IH _ H) as (Hkeep & Hnone).
    destruct (process_fields_invariants _ _ _ _ _ H1) as (Hkeep1 & Hnone1).
    split.
    + intros s f Hs. now apply Hkeep, Hkeep1.
    + intros Hh. now apply Hnone, Hnone1.
Qed.

Lemma process_mappings_written ms h h' s f :
  process_mappings metadata ms h = Ok h' ->
  is_Some (field_of h' s f) ->
  is_Some (field_of h s f) \/ resolves_in metadata ms s f.
Proof.
  revert h. induction ms as [|[name fields] rest IH]; intros h; simpl.
  - intros [= <-]. now left.
  - destruct (target_section_of name) as [target|] eqn:Ht.
    + destruct (process_fields metadata target fields h) as [h1|e] eqn:H1; simpl;
        [|discriminate].
      intros H Hf. destruct (IH _ H Hf) as [Hh|Hd];
        [|right; now apply resolves_in_cons].
      destruct (process_fields_written _ _ _ _ _ _ _ H1 Hh)
        as [Hh0|(-> & cfg & v & Hin & Hr & Hne)]; [now left|].
      right. exists name, fields, cfg, v. simpl. auto.
    + intros H Hf. destruct (IH _ H Hf) as [Hh|Hd];
        [now left|right; now apply resolves_in_cons].
Qed.

Lemma process_mappings_writes ms h h' target field :
  process_mappings metadata ms h = Ok h' ->
  (forall t, In t ["General Section"; "Method Specific"; "Tool Specific"] ->
             is_Some (h !! t)) ->
  resolves_in metadata ms target field ->
  is_Some (field_of h' target field).
Proof.
  revert h. induction ms as [|[name fields] rest IH]; intros h; simpl.
  - intros _ _ (n & fs & cfg & v & [] & _).
  - intros H Hsec (n & fs & cfg & v & Hin & Ht & Hf & Hr & Hne).
    destruct (target_is_section _ _ Ht) as (Htarget & _).
    destruct Hin as [[= -> ->]|Hin].
    + rewrite Ht in H.
      destruct (process_fields metadata target fs h) as [h1|e] eqn:H1; simpl in H;
        [|discriminate].
      apply (proj1 (process_mappings_invariants _ _ _ H)).
      exact (process_fields_writes _ _ _ _ _ _ _ _ H1 (Hsec _ Htarget) Hf Hr Hne).
    + assert (Hrest : resolves_in metadata rest target field).
      { exists n, fs, cfg, v. auto. }
      destruct (target_section_of name) as [t|].
      * destruct (process_fields metadata t fields h) as [h1|e] eqn:H1; simpl in H;
          [|discriminate].
        apply (IH _ H); [|exact Hrest].
        intros t' Ht'. apply (process_fields_sections _ _ _ _ _ _ H1). now apply Hsec.
      * now apply (IH _ H).
Qed.

Lemma process_mappings_known ms h :
  process_mappings metadata (List.filter known_section ms) h
  = process_mappings metadata ms h.
Proof.
  revert h. induction ms as [|[name fields] rest IH]; intros h; [reflexivity|].
  simpl. unfold known_section at 1. simpl.
  destruct (target_section_of name) as [target|] eqn:Ht; [|apply IH].
  simpl. rewrite Ht. destruct (process_fields _ _ _ _); simpl; [apply IH|reflexivity].
Qed.

End AssembledHeaderMappings.

Lemma init_targets (t : string) :
  In t ["General Section"; "Method Specific"; "Tool Specific"] ->
  is_Some (fa40_header_init !! t).
Proof.
  intros H. apply init_sections. unfold header_sections. simpl in *. tauto.
Qed.

Lemma injected_present (h : gmap string (gmap string Py.value))
    (tiff_file now section field : string) :
  is_Some (h !! "General Section") ->
  injected section field ->
  is_Some (field_of (add_header_metadata h tiff_file now) section field).
Proof.
  intros Hg (-> & Hin).
  destruct (add_header_metadata_three h tiff_file now Hg) as (H1 & H2 & H3).
  pose proof (add_header_metadata_file_path h tiff_file now Hg) as H4.
  simpl in Hin. destruct Hin as [<-|[<-|[<-|[<-|[]]]]];
    [rewrite H1|rewrite H2|rewrite H3|rewrite H4]; now eexists.
Qed.

Lemma add_header_metadata_keeps (h : gmap string (gmap string Py.value))
    (tiff_file now section field : string) :
  is_Some (h !! "General Section") ->
  is_Some (field_of h section field) ->
  is_Some (field_of (add_header_metadata h tiff_file now) section field).
Proof.
  intros Hg Hsome.
  destruct (decide (section = "General Section")) as [->|Hs].
  - destruct (decide (In field ["Header Type"; "Version"; "Time Stamp"; "File Path"]))
      as [Hin|Hin].
    + apply injected_present; [exact Hg|]. now split.
    + now rewrite add_header_metadata_frame by (intros _; exact Hin).
  - now rewrite add_header_metadata_frame by (intros E; contradiction).
Qed.

(** X6. On a tree shaped as the extractor builds it, with a string under
    [file_path] and a value under [file_size], [generate_fa40_header]
    returns a header whatever the connector is: no field definition can
    make it raise. *)
Theorem generate_fa40_header_returns_on_extracted_metadata
    (connector : connector) (metadata : list (key * Py.value))
    (tiff_file now : string) :
  extractor_shaped metadata ->
  exists header,
    generate_fa40_header connector metadata tiff_file now = Ok header.
Proof.
  intros Hshape. unfold generate_fa40_header, mapped_header.
  destruct (mappings connector) as [ms|]; [|eauto].
  destruct (process_mappings_shaped metadata ms fa40_header_init Hshape) as (h & ->).
  eauto.
Qed.

Lemma generate_fa40_header_returns_on_extracted_metadata_witness :
  exists header,
    generate_fa40_header sample_connector
      [(KStr "file_path", VStr "/test/sample.tif"); (KStr "file_size", VInt 1024);
       (KStr "pillow", VDict [(KStr "width", VInt 800)])]
      "/test/sample.tif" "2023-10-15T14:30:25" = Ok header.
Proof.
  apply generate_fa40_header_returns_on_extracted_metadata.
  split; [now eexists|]. split; [now eexists|].
  intros pillow [= <-]. eexists. split; [reflexivity|].
  intros info H. discriminate.
Defined.

(** X7. A generated header has the six sections and no other; nothing is
    ever stored in Customer Specific, Data Evaluation or History; and no
    field of the header holds [None]. *)
Theorem generated_header_shape
    (connector : connector) (metadata : list (key * Py.value))
    (tiff_file now : string) (header : gmap string (gmap string Py.value)) :
  generate_fa40_header connector metadata tiff_file now = Ok header ->
  (forall section, is_Some (header !! section) <-> In section header_sections)
  /\ (forall section field,
         In section ["Customer Specific"; "Data Evaluation"; "History"] ->
         field_of header section field = None)
  /\ (forall section field value,
         field_of header section field = Some value -> value <> VNone).
Proof.
  intros Hgen.
  assert (Hgen' := Hgen). unfold generate_fa40_header in Hgen'.
  destruct (mapped_header connector metadata) as [mapped|e] eqn:Hm; simpl in Hgen';
    [|discriminate].
  injection Hgen' as <-.
  assert (Hsec : forall section,
             is_Some (mapped !! section) <-> In section header_sections).
  { intros section. rewrite <- init_sections. unfold mapped_header in Hm.
    destruct (mappings connector) as [ms|].
    - exact (process_mappings_sections _ _ _ _ _ Hm).
    - now injection Hm as <-. }
  assert (Hg : is_Some (mapped !! "General Section")).
  { apply Hsec. unfold header_sections. simpl. tauto. }
  repeat apply conj.
  - intros section. rewrite add_header_metadata_sections. apply Hsec.
  - intros section field Hin.
    destruct (field_of (add_header_metadata mapped tiff_file now) section field)
      as [v|] eqn:E; [|reflexivity].
    assert (Hd : declared connector section field).
    { apply (generated_fields _ _ _ _ _ _ _ Hgen); [now rewrite E|].
      intros (-> & _). simpl in Hin.
      repeat (destruct Hin as [Hin|Hin]; [discriminate|]). destruct Hin. }
    unfold declared in Hd. destruct (mappings connector) as [ms|]; [|destruct Hd].
    destruct Hd as (n & fs & _ & Ht & _).
    apply target_is_section in Ht as (Ht & _). simpl in Ht, Hin.
    repeat (destruct Ht as [<-|Ht];
            [repeat (destruct Hin as [Hin|Hin]; [discriminate|]); destruct Hin|]).
    destruct Ht.
  - intros section field value Hv.
    assert (Hmapped : forall s f v, field_of mapped s f = Some v -> v <> VNone).
    { unfold mapped_header in Hm. destruct (mappings connector) as [ms|].
      - apply (proj2 (process_mappings_invariants _ _ _ _ Hm)).
        intros s f v. now rewrite field_of_init.
      - injection Hm as <-. intros s f v. now rewrite field_of_init. }
    destruct (decide (injected section field)) as [(-> & Hin)|Hinj].
    + destruct (add_header_metadata_three mapped tiff_file now Hg) as (H1 & H2 & H3).
      pose proof (add_header_metadata_file_path mapped tiff_file now Hg) as H4.
      simpl in Hin. destruct Hin as [<-|[<-|[<-|[<-|[]]]]].
      * rewrite H1 in Hv. injection Hv as <-. discriminate.
      * rewrite H2 in Hv. injection Hv as <-. discriminate.
      * rewrite H3 in Hv. injection Hv as <-. discriminate.
      * rewrite H4 in Hv. injection Hv as <-.
        destruct (field_of mapped "General Section" "File Path") as [x|] eqn:Ex;
          simpl; [exact (Hmapped _ _ _ Ex)|discriminate].
    + rewrite add_header_metadata_frame in Hv.
      * exact (Hmapped _ _ _ Hv).
      * intros -> Hin. apply Hinj. now split.
Qed.

Lemma generated_header_shape_witness :
  generate_fa40_header overwriting_connector
    [(KStr "tool_version", VStr "v9"); (KStr "software", VStr "SemiShop")]
    "/test/sample.tif" "2023-10-15T14:30:25"
  = Ok (add_header_metadata
          (set_field
             (set_field fa40_header_init "General Section" "Version" (VStr "v9"))
             "General Section" "Software" (VStr "SemiShop"))
          "/test/sample.tif" "2023-10-15T14:30:25")
  /\ field_of
       (add_header_metadata
          (set_field
             (set_field fa40_header_init "General Section" "Version" (VStr "v9"))
             "General Section" "Software" (VStr "SemiShop"))
          "/test/sample.tif" "2023-10-15T14:30:25")
       "History" "Software" = None.
Proof.
  split; [reflexivity|].
  refine (proj1 (proj2 (generated_header_shape overwriting_connector
            [(KStr "tool_version", VStr "v9"); (KStr "software", VStr "SemiShop")]
            "/test/sample.tif" "2023-10-15T14:30:25" _ _)) "History" "Software" _).
  - reflexivity.
  - simpl. tauto.
Defined.

(** X8. Mapping sections other than general_section, method_specific and
    tool_specific have no effect on the header: the connector without
    them gives the same result. *)
Theorem unknown_mapping_sections_are_ignored
    (connector : connector) (metadata : list (key * Py.value))
    (tiff_file now : string) :
  generate_fa40_header (without_unknown_sections connector) metadata tiff_file now
  = generate_fa40_header connector metadata tiff_file now.
Proof.
  unfold generate_fa40_header, mapped_header, without_unknown_sections. simpl.
  destruct (mappings connector) as [ms|]; simpl; [|reflexivity].
  now rewrite process_mappings_known.
Qed.

(** The fields of a generated header. *)
Lemma header_fields_spec
    (connector : connector) (metadata : list (key * Py.value))
    (tiff_file now : string) (header : gmap string (gmap string Py.value)) :
  generate_fa40_header connector metadata tiff_file now = Ok header ->
  forall section field,
    is_Some (field_of header section field)
    <-> injected section field \/ resolves connector metadata section field.
Proof.
  intros Hgen section field.
  unfold generate_fa40_header in Hgen.
  destruct (mapped_header connector metadata) as [mapped|e] eqn:Hm; simpl in Hgen;
    [|discriminate].
  injection Hgen as <-.
  pose proof (mapped_header_general _ _ _ Hm) as Hg.
  unfold resolves, mapped_header in *. split.
  - intros Hsome.
    destruct (decide (injected section field)) as [Hinj|Hinj]; [now left|right].
    rewrite add_header_metadata_frame in Hsome
      by (intros -> Hin; apply Hinj; now split).
    destruct (mappings connector) as [ms|].
    + exists ms. split; [reflexivity|].
      destruct (process_mappings_written _ _ _ _ _ _ Hm Hsome) as [Hi|Hr];
        [|exact Hr].
      rewrite field_of_init in Hi. destruct Hi. discriminate.
    + injection Hm as <-. rewrite field_of_init in Hsome.
      destruct Hsome. discriminate.
  - intros [Hinj|(ms & Hms & Hr)].
    + now apply injected_present.
    + apply add_header_metadata_keeps; [exact Hg|].
      rewrite Hms in Hm.
      exact (process_mappings_writes _ _ _ _ _ _ Hm init_targets Hr).
Qed.

(** X9. The fields of a generated header are exactly the four the
    assembler adds (Header Type, Version, Time Stamp, File Path of the
    General Section) and those for which some definition under a section
    mapped to that output section resolves to a value that is not
    [None]. *)
Theorem generated_header_fields
    (connector : connector) (metadata : list (key * Py.value))
    (tiff_file now : string) (header : gmap string (gmap string Py.value)) :
  generate_fa40_header connector metadata tiff_file now = Ok header ->
  forall section field,
    is_Some (field_of header section field)
    <-> injected section field \/ resolves connector metadata section field.
Proof. exact (header_fields_spec connector metadata tiff_file now header). Qed.

Lemma generated_header_fields_witness :
  is_Some
    (field_of
       (add_header_metadata
          (set_field
             (set_field fa40_header_init "General Section" "Version" (VStr "v9"))
             "General Section" "Software" (VStr "SemiShop"))
          "/test/sample.tif" "2023-10-15T14:30:25")
       "General Section" "Software").
Proof.
  refine (proj2 (generated_header_fields overwriting_connector
            [(KStr "tool_version", VStr "v9"); (KStr "software", VStr "SemiShop")]
            "/test/sample.tif" "2023-10-15T14:30:25" _ _
            "General Section" "Software") _).
  - reflexivity.
  - right. eexists. split; [reflexivity|].
    eexists "general_section", _, _, (VStr "SemiShop").
    split; [now left|]. split; [reflexivity|].
    split; [right; now left|]. split; [reflexivity|discriminate].
Defined.

Lemma split_once_app (sep : ascii) (a b : string) :
  contains_char sep a = false -> split_once sep (a +:+ String sep b) = [a; b].
Proof.
  induction a as [|c a IH].
  - intros _. rewrite append_nil. simpl. now rewrite Ascii.eqb_refl.
  - rewrite append_cons. simpl. intros H. apply orb_false_elim in H as [Hc Ha].
    now rewrite Hc, (IH Ha).
Qed.

(** X10. Validating the header generated from the same connector: when
    every path has a point, the report has no validation error, and for a
    path made of one of the three section names and a field, the path is
    reported missing exactly when it is required and the field is neither
    added by the assembler nor resolved by a definition; it is reported
    present exactly when it is optional and the field is one of these. *)
Theorem validate_generated_header
    (connector : connector) (metadata : list (key * Py.value))
    (tiff_file now : string) (v : validation_spec)
    (header : gmap string (gmap string Py.value)) :
  generate_fa40_header connector metadata tiff_file now = Ok header ->
  validation connector = Some v ->
  (forall field_path,
      In field_path (required_fields v ++ optional_fields v)%list ->
      contains_char "." field_path = true) ->
  exists report,
    validate_header connector header = Ok report
    /\ validation_errors report = []
    /\ forall section_name target field,
         target_section_of section_name = Some target ->
         (In (section_name +:+ "." +:+ field) (missing_required report)
          <-> In (section_name +:+ "." +:+ field) (required_fields v)
              /\ ~ injected target field
              /\ ~ resolves connector metadata target field)
         /\ (In (section_name +:+ "." +:+ field) (present_optional report)
             <-> In (section_name +:+ "." +:+ field) (optional_fields v)
                 /\ (injected target field
                     \/ resolves connector metadata target field)).
Proof.
  intros Hgen Hv Hall. rewrite (validate_header_spec header connector v Hv).
  assert (H : forallb dotted (required_fields v ++ optional_fields v)%list = true)
    by (apply forallb_forall; exact Hall).
  rewrite H. eexists. split; [reflexivity|]. split; [reflexivity|].
  intros section_name target field Ht. simpl.
  destruct (target_is_section _ _ Ht) as (_ & Hmap & Hdot).
  assert (Hp : path_presentb header (section_name +:+ "." +:+ field) = true
               <-> injected target field
                   \/ resolves connector metadata target field).
  { unfold path_presentb. change ("." +:+ field) with (String "." field).
    rewrite (split_once_app _ _ _ Hdot), Hmap, has_field_spec.
    exact (header_fields_spec _ _ _ _ _ Hgen target field). }
  rewrite !filter_In. split.
  - split.
    + intros [Hin Hn]. split; [exact Hin|].
      assert (Hno : ~ path_presentb header (section_name +:+ "." +:+ field) = true).
      { intros E. rewrite E in Hn. discriminate. }
      split; intros Hx; apply Hno; apply Hp; auto.
    + intros (Hin & Hni & Hnr). split; [exact Hin|].
      apply negb_true_iff, not_true_is_false. intros E.
      apply Hp in E as [E|E]; contradiction.
  - now rewrite Hp.
Qed.

Lemma validate_generated_header_witness :
  exists header report,
    generate_fa40_header sample_connector
      [(KStr "file_path", VStr "/test/sample.tif"); (KStr "file_size", VInt 1024)]
      "/test/sample.tif" "2023-10-15T14:30:25" = Ok header
    /\ validate_header sample_connector header = Ok report
    /\ validation_errors report = [].
Proof.
  destruct (validate_generated_header sample_connector
              [(KStr "file_path", VStr "/test/sample.tif"); (KStr "file_size", VInt 1024)]
              "/test/sample.tif" "2023-10-15T14:30:25"
              (mk_validation
                 ["general_section.File Name"; "general_section.Image Width"]
                 ["general_section.Software"])
              (add_header_metadata
                 (set_field fa40_header_init "General Section" "File Name"
                    (VStr "sample.tif"))
                 "/test/sample.tif" "2023-10-15T14:30:25"))
    as (report & Hrun & Herr & _).
  - reflexivity.
  - reflexivity.
  - intros p [<-|[<-|[<-|[]]]]; reflexivity.
  - eexists. exists report. split; [reflexivity|]. split; [exact Hrun|exact Herr].
Defined.

(** ** The sources that exist *)

Section SourcesExist.


End SourcesExist.



(** ** ISO 8601 texts *)

Section IsoRoundTrip.

Lemma below_nat (P : Z -> Prop) (n : nat) :
  (forall k, (k < n)%nat -> P (Z.of_nat k)) ->
  forall v, (0 <= v < Z.of_nat n)%Z -> P v.
Proof.
  intros H v Hv. rewrite <- (Z2Nat.id v) by lia. apply H. lia.
Qed.

Lemma year_texts : forallb year_text_ok (seq 0 (Z.to_nat 10000)) = true.
Proof. vm_compute. reflexivity. Qed.

Lemma two_digit_texts : forallb two_digits_ok (seq 0 60) = true.
Proof. vm_compute. reflexivity. Qed.

Lemma pad4_spec (y : Z) :
  (0 <= y <= 9999)%Z ->
  four_digits (pad 4 y) = true /\ digits_value 0 (lstrip (pad 4 y)) = y.
Proof.
  intros Hy. pose proof year_texts as H. rewrite forallb_forall in H.
  specialize (H (Z.to_nat y)).
  unfold year_text_ok in H. rewrite Z2Nat.id in H by lia.
  apply andb_true_iff in H as [H1 H2]; [|apply in_seq; lia].
  split; [exact H1|]. now apply Z.eqb_eq.
Qed.

Lemma pad2_spec (v : Z) :
  (0 <= v <= 59)%Z ->
  digits_value 0 (lstrip (pad 2 v)) = v /\ all_digits (pad 2 v) = true.
Proof.
  intros Hv. pose proof two_digit_texts as H. rewrite forallb_forall in H.
  specialize (H (Z.to_nat v)).
  unfold two_digits_ok in H. rewrite Z2Nat.id in H by lia.
  apply andb_true_iff in H as [H1 H2]; [|apply in_seq; lia].
  split; [now apply Z.eqb_eq|exact H2].
Qed.

Lemma first_match_nil (s : string) : first_match (match_tokens [] s) ([], s).
Proof. now exists []. Qed.

Lemma literal_step (c : ascii) (ts : list token) (rest : string) :
  match_tokens (Literal c :: ts) (String c rest) = match_tokens ts rest.
Proof. cbn [match_tokens]. now rewrite Ascii.eqb_refl. Qed.

Ltac two_digit_case :=
  let ts := fresh "ts" in
  let rest := fresh "rest" in
  let caps := fresh "caps" in
  let r := fresh "r" in
  let l' := fresh "l" in
  let H := fresh "H" in
  intros ts rest caps r [l' H];
  match goal with
  | |- context [pad 2 ?v] =>
      let s := eval vm_compute in (pad 2 v) in change (pad 2 v) with s
  end;
  rewrite !append_cons, append_nil;
  cbn [match_tokens]; cbv -[match_tokens]; rewrite H; cbv -[match_tokens];
  eexists; reflexivity.

Tactic Notation "enumerate" integer(n) :=
  let k := fresh "k" in
  let Hk := fresh "Hk" in
  intros k Hk; do n (destruct k as [|k]; [two_digit_case|]); lia.

Lemma minute_step (v : Z) : (0 <= v <= 59)%Z -> directive_step "M" v.
Proof.
  intros Hv. apply (below_nat (directive_step "M") 60); [|lia].
  unfold directive_step. enumerate 60.
Qed.

Lemma second_step (v : Z) : (0 <= v <= 59)%Z -> directive_step "S" v.
Proof.
  intros Hv. apply (below_nat (directive_step "S") 60); [|lia].
  unfold directive_step. enumerate 60.
Qed.

Lemma hour_step (v : Z) : (0 <= v <= 23)%Z -> directive_step "H" v.
Proof.
  intros Hv. apply (below_nat (directive_step "H") 24); [|lia].
  unfold directive_step. enumerate 24.
Qed.

Lemma month_step (v : Z) : (1 <= v <= 12)%Z -> directive_step "m" v.
Proof.
  intros Hv. replace v with (1 + (v - 1))%Z by lia.
  apply (below_nat (fun w => directive_step "m" (1 + w)) 12); [|lia].
  unfold directive_step. enumerate 12.
Qed.

Lemma day_step (v : Z) : (1 <= v <= 31)%Z -> directive_step "d" v.
Proof.
  intros Hv. replace v with (1 + (v - 1))%Z by lia.
  apply (below_nat (fun w => directive_step "d" (1 + w)) 31); [|lia].
  unfold directive_step. enumerate 31.
Qed.

Lemma year_step (y : Z) (ts : list token) (rest : string) caps r :
  (0 <= y <= 9999)%Z ->
  first_match (match_tokens ts rest) (caps, r) ->
  first_match (match_tokens (Directive "Y" :: ts) (pad 4 y +:+ rest))
              (("Y"%char, pad 4 y) :: caps, r).
Proof.
  intros Hy [l' H]. destruct (pad4_spec y Hy) as (H4 & _).
  destruct (pad 4 y) as [|a [|b [|c [|e [|? ?]]]]]; try discriminate.
  simpl in H4. apply andb_true_iff in H4 as [H4 He].
  apply andb_true_iff in H4 as [H4 Hc]. apply andb_true_iff in H4 as [Ha Hb].
  rewrite !append_cons, append_nil.
  cbn [match_tokens alternatives match_classes List.flat_map Ascii.eqb Bool.eqb].
  rewrite Ha, Hb, Hc, He, H. cbn. eexists. reflexivity.
Qed.


Lemma valid_datetime_ranges (dt : datetime) :
  valid_datetime dt = true ->
  (1 <= year dt <= 9999 /\ 1 <= month dt <= 12 /\ 1 <= day dt <= 31
   /\ 0 <= hour dt <= 23 /\ 0 <= minute dt <= 59 /\ 0 <= second dt <= 59)%Z.
Proof.
  unfold valid_datetime. rewrite !andb_true_iff, !Z.leb_le.
  assert (days_in_month (year dt) (month dt) <= 31)%Z.
  { unfold days_in_month.
    repeat match goal with |- context [if ?b then _ else _] => destruct b end; lia. }
  lia.
Qed.

(** Parsing the ISO text of a date and time with the ISO format gives the
    date and time back. *)
Lemma strptime_isoformat (dt : datetime) :
  valid_datetime dt = true -> strptime (isoformat dt) iso_format = Some dt.
Proof.
  intros Hv. destruct (valid_datetime_ranges dt Hv) as (Hy & Hm & Hd & HH & HM & HS).
  assert (E : first_match (match_tokens (tokens iso_format) (isoformat dt))
                ([("Y"%char, pad 4 (year dt)); ("m"%char, pad 2 (month dt));
                  ("d"%char, pad 2 (day dt)); ("H"%char, pad 2 (hour dt));
                  ("M"%char, pad 2 (minute dt)); ("S"%char, pad 2 (second dt))], "")).
  { unfold isoformat. change (tokens iso_format) with
      [Directive "Y"; Literal "-"; Directive "m"; Literal "-"; Directive "d";
       Literal "T"; Directive "H"; Literal ":"; Directive "M"; Literal ":";
       Directive "S"].
    apply year_step; [lia|]. rewrite append_cons, append_nil, literal_step.
    apply month_step; [lia|]. rewrite append_cons, append_nil, literal_step.
    apply day_step; [lia|]. rewrite append_cons, append_nil, literal_step.
    apply hour_step; [lia|]. rewrite append_cons, append_nil, literal_step.
    apply minute_step; [lia|]. rewrite append_cons, append_nil, literal_step.
    rewrite <- (append_empty (pad 2 (second dt))) at 1.
    apply second_step; [lia|]. apply first_match_nil. }
  destruct E as [l' E]. unfold strptime. rewrite E.
  cbn [capture Ascii.eqb Bool.eqb].
  rewrite (proj2 (pad4_spec (year dt) ltac:(lia))).
  rewrite (proj1 (pad2_spec (month dt) ltac:(lia))),
          (proj1 (pad2_spec (day dt) ltac:(lia))),
          (proj1 (pad2_spec (hour dt) ltac:(lia))),
          (proj1 (pad2_spec (minute dt) ltac:(lia))),
          (proj1 (pad2_spec (second dt) ltac:(lia))).
  destruct dt; cbn in *. now rewrite Hv.
Qed.

End IsoRoundTrip.

Section IsoText.

Lemma str_forall_impl (f g : ascii -> bool) (s : string) :
  (forall c, f c = true -> g c = true) ->
  str_forall f s = true -> str_forall g s = true.
Proof.
  intros Hfg. induction s as [|c s IH]; simpl; [reflexivity|].
  intros H. apply andb_true_iff in H as [Hc Hs]. now rewrite (Hfg c Hc), (IH Hs).
Qed.

Lemma str_forall_app (f : ascii -> bool) (a b : string) :
  str_forall f (a +:+ b) = str_forall f a && str_forall f b.
Proof.
  induction a as [|c a IH]; [reflexivity|].
  rewrite append_cons. simpl. now rewrite IH, andb_assoc.
Qed.

Lemma iso_char_plain (c : ascii) :
  iso_char c = true -> no_space c = true /\ not_control c = true.
Proof.
  destruct c as [[] [] [] [] [] [] [] []]; vm_compute; intros H;
    first [discriminate H | split; reflexivity].
Qed.

Lemma all_digits_iso (s : string) : all_digits s = true -> str_forall iso_char s = true.
Proof.
  induction s as [|c s IH]; simpl; [reflexivity|].
  intros H. apply andb_true_iff in H as [Hc Hs].
  unfold iso_char at 1. now rewrite Hc, (IH Hs).
Qed.

Lemma four_digits_all (s : string) : four_digits s = true -> all_digits s = true.
Proof.
  destruct s as [|a [|b [|c [|e [|? ?]]]]]; try discriminate.
  simpl. now rewrite andb_true_r, !andb_assoc.
Qed.

Lemma isoformat_chars (dt : datetime) :
  valid_datetime dt = true -> str_forall iso_char (isoformat dt) = true.
Proof.
  intros Hv. destruct (valid_datetime_ranges dt Hv) as (Hy & Hm & Hd & HH & HM & HS).
  unfold isoformat. rewrite !str_forall_app.
  rewrite (all_digits_iso _ (four_digits_all _ (proj1 (pad4_spec (year dt) ltac:(lia))))).
  rewrite (all_digits_iso _ (proj2 (pad2_spec (month dt) ltac:(lia)))),
          (all_digits_iso _ (proj2 (pad2_spec (day dt) ltac:(lia)))),
          (all_digits_iso _ (proj2 (pad2_spec (hour dt) ltac:(lia)))),
          (all_digits_iso _ (proj2 (pad2_spec (minute dt) ltac:(lia)))),
          (all_digits_iso _ (proj2 (pad2_spec (second dt) ltac:(lia)))).
  reflexivity.
Qed.

Lemma isoformat_not_empty (dt : datetime) : String.eqb (isoformat dt) "" = false.
Proof.
  unfold isoformat. destruct (pad 4 (year dt)) as [|c s]; [|reflexivity].
  rewrite append_nil, append_cons. reflexivity.
Qed.

Lemma rstrip_no_space (s : string) : str_forall no_space s = true -> rstrip s = s.
Proof.
  induction s as [|c s IH]; simpl; [reflexivity|].
  intros H. apply andb_true_iff in H as [Hc Hs]. rewrite (IH Hs).
  apply negb_true_iff in Hc. rewrite Hc. now destruct s.
Qed.

Lemma lstrip_no_space (s : string) : str_forall no_space s = true -> lstrip s = s.
Proof.
  destruct s as [|c s]; simpl; [reflexivity|].
  intros H. apply andb_true_iff in H as [Hc _].
  apply negb_true_iff in Hc. now rewrite Hc.
Qed.

Lemma contains_char_false (f : ascii -> bool) (c : ascii) (s : string) :
  f c = false -> str_forall f s = true -> contains_char c s = false.
Proof.
  intros Hc. induction s as [|c' s IH]; simpl; [reflexivity|].
  intros H. apply andb_true_iff in H as [Hc' Hs]. rewrite (IH Hs), orb_false_r.
  destruct (Ascii.eqb_spec c' c) as [->|]; [congruence|reflexivity].
Qed.

Lemma match_classes_rest (f : ascii -> bool) (cs : list (ascii -> bool)) :
  forall s m r,
    match_classes cs s = Some (m, r) ->
    str_forall f s = true -> str_forall f r = true.
Proof.
  induction cs as [|g cs IH]; intros s m r; simpl.
  - now intros [= _ <-].
  - destruct s as [|c s]; [discriminate|].
    destruct (g c); [|discriminate].
    destruct (match_classes cs s) as [[m' r']|] eqn:E; [|discriminate].
    intros [= _ <-] H. simpl in H. apply andb_true_iff in H as [_ Hs].
    exact (IH s m' r' E Hs).
Qed.

(** A format with white space matches no string without white space. *)
Lemma match_tokens_needs_space (ts : list token) :
  forall s, In Whitespace ts -> str_forall no_space s = true -> match_tokens ts s = [].
Proof.
  induction ts as [|t ts IH]; intros s Hin Hs; [destruct Hin|].
  destruct t as [d| |c].
  - destruct Hin as [|Hin]; [discriminate|]. cbn [match_tokens].
    induction (alternatives d) as [|alt alts IHa]; [reflexivity|].
    cbn [List.flat_map]. rewrite IHa, app_nil_r.
    destruct (match_classes alt s) as [[m r]|] eqn:E; [|reflexivity].
    now rewrite (IH r Hin (match_classes_rest _ _ _ _ _ E Hs)).
  - cbn [match_tokens]. destruct s as [|c s]; [reflexivity|].
    simpl in Hs. apply andb_true_iff in Hs as [Hc _].
    apply negb_true_iff in Hc. cbn [after_spaces]. now rewrite Hc.
  - destruct Hin as [|Hin]; [discriminate|]. cbn [match_tokens].
    destruct s as [|c' s]; [reflexivity|].
    simpl in Hs. apply andb_true_iff in Hs as [_ Hs].
    destruct (Ascii.eqb _ _); [exact (IH s Hin Hs)|reflexivity].
Qed.

Lemma strptime_needs_space (s fmt : string) :
  In Whitespace (tokens fmt) -> str_forall no_space s = true -> strptime s fmt = None.
Proof.
  intros Hin Hs. unfold strptime. now rewrite (match_tokens_needs_space _ _ Hin Hs).
Qed.

Lemma strptime_valid (s fmt : string) (dt : datetime) :
  strptime s fmt = Some dt -> valid_datetime dt = true.
Proof.
  unfold strptime. destruct (match_tokens (tokens fmt) s) as [|[caps [|c r]] l];
    try discriminate.
  destruct (valid_datetime _) eqn:E; [|discriminate]. now intros [= <-].
Qed.

Lemma try_formats_some (s : string) (fmts : list string) (iso : string) :
  try_formats s fmts = Some iso ->
  exists dt, valid_datetime dt = true /\ iso = isoformat dt.
Proof.
  induction fmts as [|fmt fmts IH]; simpl; [discriminate|].
  destruct (strptime s fmt) as [dt|] eqn:E; [|exact IH].
  intros [= <-]. exists dt. split; [exact (strptime_valid _ _ _ E)|reflexivity].
Qed.

Lemma clean_string_plain (s : string) :
  str_forall iso_char s = true -> _clean_string (VStr s) = s.
Proof.
  intros H. cbn [_clean_string]. fold not_control.
  rewrite (str_filter_id not_control s)
    by (apply (str_forall_impl iso_char); [apply iso_char_plain|exact H]).
  assert (Hs : str_forall no_space s = true)
    by (apply (str_forall_impl iso_char); [apply iso_char_plain|exact H]).
  unfold strip. now rewrite (lstrip_no_space s Hs), (rstrip_no_space s Hs).
Qed.

End IsoText.

(** The ISO text of a date and time is returned as it is. *)
Lemma iso_text_is_fixed (dt : datetime) :
  valid_datetime dt = true ->
  _datetime_to_iso8601 (VStr (isoformat dt)) = VStr (isoformat dt).
Proof.
  intros Hv. pose proof (isoformat_chars dt Hv) as Hc.
  assert (Hs : str_forall no_space (isoformat dt) = true)
    by (apply (str_forall_impl iso_char); [apply iso_char_plain|exact Hc]).
  unfold _datetime_to_iso8601. cbn [truthy _get_first_valid_string].
  rewrite (clean_string_plain _ Hc), isoformat_not_empty. cbn [negb].
  rewrite (contains_char_false no_space " " (isoformat dt) eq_refl Hs), andb_false_r.
  change formats with (["%Y-%m-%d %H:%M:%S"; "%Y/%m/%d %H:%M:%S"] ++ iso_format
                       :: ["%Y-%m-%d"; "%Y:%m:%d"])%list.
  rewrite (try_formats_first _ _ _ _ dt); [reflexivity| |exact (strptime_isoformat dt Hv)].
  intros f [<-|[<-|[]]]; apply strptime_needs_space; try exact Hs;
    vm_compute; tauto.
Qed.

(** X12. The text [YYYY-MM-DDTHH:MM:SS] of an existing date and time is
    parsed back to that date and time by the format [%Y-%m-%dT%H:%M:%S],
    and [_datetime_to_iso8601] returns such a text unchanged. *)
Theorem datetime_to_iso8601_fixes_iso_text (dt : datetime) :
  valid_datetime dt = true ->
  strptime (isoformat dt) iso_format = Some dt
  /\ _datetime_to_iso8601 (VStr (isoformat dt)) = VStr (isoformat dt).
Proof.
  intros Hv. split; [exact (strptime_isoformat dt Hv)|exact (iso_text_is_fixed dt Hv)].
Qed.

Lemma datetime_to_iso8601_fixes_iso_text_witness :
  _datetime_to_iso8601 (VStr "2023-10-15T14:30:25") = VStr "2023-10-15T14:30:25".
Proof.
  exact (proj2 (datetime_to_iso8601_fixes_iso_text
                  (mk_datetime 2023 10 15 14 30 25) eq_refl)).
Defined.

(** X13. [_datetime_to_iso8601] is idempotent on strings: converting its
    own result changes nothing, whether the input was parsed as a date,
    returned as it was, or rejected. *)
Theorem datetime_to_iso8601_idempotent (s : string) :
  apply_transformation (apply_transformation (VStr s) "convert_to_iso8601")
                       "convert_to_iso8601"
  = apply_transformation (VStr s) "convert_to_iso8601".
Proof.
  change (_datetime_to_iso8601 (_datetime_to_iso8601 (VStr s))
          = _datetime_to_iso8601 (VStr s)).
  unfold _datetime_to_iso8601 at 2 3.
  destruct (negb (truthy (VStr s))); [reflexivity|].
  cbn [_get_first_valid_string].
  destruct (String.eqb (_clean_string (VStr s)) "") eqn:Ee; [reflexivity|].
  set (value_str := _clean_string (VStr s)) in *.
  destruct (if contains_char ":" value_str && contains_char " " value_str
            then strptime value_str tiff_format else None) as [dt|] eqn:Et.
  { apply iso_text_is_fixed.
    destruct (_ && _); [exact (strptime_valid _ _ _ Et)|discriminate]. }
  destruct (try_formats value_str formats) as [iso|] eqn:Ef.
  { destruct (try_formats_some _ _ _ Ef) as (dt & Hv & ->).
    now apply iso_text_is_fixed. }
  unfold _datetime_to_iso8601. cbn [truthy _get_first_valid_string].
  assert (Hc : _clean_string (VStr value_str) = value_str)
    by apply clean_string_idempotent.
  rewrite Hc, Ee. cbn [negb]. now rewrite Et, Ef.
Qed.

(** ** The collected paths *)

Section CollectedPaths.

Lemma value_nested_ind (P : Py.value -> Prop) :
  (forall v, is_container v = false -> P v) ->
  (forall l, Forall P l -> P (VList l)) ->
  (forall d, Forall (fun kv => P (snd kv)) d -> P (VDict d)) ->
  forall v, P v.
Proof.
  intros Hleaf Hlist Hdict. fix IH 1. intros v.
  destruct v as [| | | | |l|l|d]; try (apply Hleaf; reflexivity).
  - apply Hlist. induction l as [|x l IHl]; constructor; [apply IH|exact IHl].
  - apply Hdict. induction d as [|[k x] d IHd]; constructor; [apply IH|exact IHd].
Qed.

Lemma string_app_assoc (a b c : string) : (a +:+ b) +:+ c = a +:+ (b +:+ c).
Proof.
  induction a as [|x a IH]; [reflexivity|]. rewrite !append_cons. now rewrite IH.
Qed.

Lemma path_under_not_empty (prefix part : string) :
  part <> "" -> path_under prefix part <> "".
Proof.
  unfold path_under. destruct prefix as [|c prefix]; [auto|].
  intros _. simpl. rewrite append_cons. discriminate.
Qed.

Lemma path_under_assoc (prefix part rest : string) :
  part <> "" ->
  path_under (path_under prefix part) rest
  = path_under prefix (part +:+ "." +:+ rest).
Proof.
  intros Hp. unfold path_under at 1.
  destruct (String.eqb_spec (path_under prefix part) "") as [E|_];
    [now destruct (path_under_not_empty prefix part Hp)|].
  unfold path_under. destruct (String.eqb prefix ""); [reflexivity|].
  now rewrite !string_app_assoc.
Qed.

Lemma split_on_plain (sep : ascii) (s : string) :
  contains_char sep s = false -> split_on sep s = [s].
Proof.
  induction s as [|c s IH]; simpl; [reflexivity|].
  intros H. apply orb_false_elim in H as [Hc Hs]. now rewrite Hc, (IH Hs).
Qed.

Lemma dict_get_distinct (k : key) (v : Py.value) (d : list (key * Py.value)) :
  distinct (List.map fst d) = true -> In (k, v) d -> dict_get k d = Some v.
Proof.
  induction d as [|[k' v'] d IH]; simpl; [intros _ []|].
  intros H. apply andb_true_iff in H as [Hk Hd]. intros [[= -> ->]|Hin].
  - assert (E : key_eqb k k = true)
      by (destruct k; simpl; [apply String.eqb_refl|apply Z.eqb_refl]).
    now rewrite E.
  - destruct (key_eqb k k') eqn:E; [|exact (IH Hd Hin)].
    apply negb_true_iff in Hk.
    assert (Hex : existsb (key_eqb k') (List.map fst d) = true).
    { apply existsb_exists. exists k. split; [now apply (in_map fst d (k, v))|].
      destruct k, k'; simpl in *; try discriminate.
      - now rewrite String.eqb_sym.
      - now rewrite Z.eqb_sym. }
    congruence.
Qed.

Lemma for_enumerate_In {A B : Type} (f : nat -> A -> list B) (y : B) (l : list A) :
  forall n start,
    In y (for_enumerate f n start l) ->
    exists i x, (i < n)%nat /\ List.nth_error l i = Some x /\ In y (f (start + i)%nat x).
Proof.
  induction l as [|x l IH]; intros n start; simpl; [intros []|].
  destruct n as [|n]; [intros []|].
  intros H. apply in_app_or in H as [H|H].
  - exists 0%nat, x. rewrite Nat.add_0_r. split; [lia|]. split; [reflexivity|exact H].
  - destruct (IH _ _ H) as (i & x' & Hi & Hn & Hy).
    exists (S i), x'. split; [lia|]. split; [exact Hn|].
    now rewrite Nat.add_succ_r.
Qed.

Lemma index_part (i : nat) (l : list Py.value) (x : Py.value) (rest : list string) :
  (i < 3)%nat -> List.nth_error l i = Some x ->
  walk (str_of_int (Z.of_nat i) :: rest) (VList l) = walk rest x
  /\ str_of_int (Z.of_nat i) <> ""
  /\ contains_char "." (str_of_int (Z.of_nat i)) = false.
Proof.
  intros Hi Hx.
  destruct i as [|[|[|i]]]; [| | |lia];
    match goal with
    | |- context [str_of_int ?z] =>
        let s := eval vm_compute in (str_of_int z) in change (str_of_int z) with s
    end;
    cbn [walk]; cbv -[List.nth_error walk]; rewrite Hx;
    (split; [reflexivity|split; [discriminate|reflexivity]]).
Qed.

(** Every collected path is the prefix and a path that leads somewhere
    in the tree. *)
Lemma get_all_paths_walk (obj : Py.value) :
  plain_keys obj = true ->
  forall prefix p,
    In p (_get_all_paths obj prefix) ->
    exists q, p = path_under prefix q /\ walk (split_on "." q) obj = Ok true.
Proof.
  induction obj as [v Hv|l IH|d IH] using value_nested_ind.
  - destruct v; try discriminate; intros _ prefix p [].
  - intros Hplain prefix p Hin. cbn [_get_all_paths] in Hin. cbn [plain_keys] in Hplain.
    apply for_enumerate_In in Hin as (i & x & Hi & Hx & Hin). simpl in Hin.
    rewrite forallb_forall in Hplain. rewrite List.Forall_forall in IH.
    pose proof (nth_error_In _ _ Hx) as Hxin.
    destruct (index_part i l x [] Hi Hx) as (_ & Hne & Hdot).
    destruct Hin as [<-|Hin].
    + exists (str_of_int (Z.of_nat i)). split; [reflexivity|].
      rewrite (split_on_plain _ _ Hdot).
      now rewrite (proj1 (index_part i l x [] Hi Hx)).
    + destruct (is_container x); [|destruct Hin].
      destruct (IH x Hxin (Hplain x Hxin) _ _ Hin) as (q & -> & Hq).
      exists (str_of_int (Z.of_nat i) +:+ "." +:+ q).
      split; [now apply path_under_assoc|].
      change ("." +:+ q) with (String "." q).
      rewrite split_on_app, (split_on_plain _ _ Hdot). cbn [app].
      now rewrite (proj1 (index_part i l x _ Hi Hx)).
  - intros Hplain prefix p Hin. cbn [_get_all_paths] in Hin. cbn [plain_keys] in Hplain.
    apply andb_true_iff in Hplain as [Hdist Hplain].
    rewrite forallb_forall in Hplain. rewrite List.Forall_forall in IH.
    apply in_flat_map in Hin as ([k v] & Hkv & Hin). simpl in Hin.
    specialize (Hplain _ Hkv). simpl in Hplain.
    apply andb_true_iff in Hplain as [Hk Hv].
    destruct k as [s|n]; [|discriminate]. simpl in Hk, Hin.
    apply andb_true_iff in Hk as [Hne Hdot].
    apply negb_true_iff in Hne, Hdot.
    apply String.eqb_neq in Hne.
    pose proof (dict_get_distinct _ _ _ Hdist Hkv) as Hget.
    destruct Hin as [<-|Hin].
    + exists s. split; [reflexivity|].
      rewrite (split_on_plain _ _ Hdot). simpl. now rewrite Hget.
    + destruct (is_container v); [|destruct Hin].
      destruct (IH _ Hkv Hv _ _ Hin) as (q & -> & Hq).
      exists (s +:+ "." +:+ q). split; [now apply path_under_assoc|].
      change ("." +:+ q) with (String "." q).
      rewrite split_on_app, (split_on_plain _ _ Hdot). simpl. now rewrite Hget.
Qed.

Lemma flat_map_incl {A B : Type} (f g : A -> list B) (l : list A) :
  Forall (fun x => incl (f x) (g x)) l -> incl (List.flat_map f l) (List.flat_map g l).
Proof.
  induction 1 as [|x l Hx Hl IH]; simpl; [easy|].
  apply incl_app; [now apply incl_appl|now apply incl_appr].
Qed.

Lemma collect_paths_incl (obj : Py.value) :
  forall prefix, incl (collect_paths obj prefix) (_get_all_paths obj prefix).
Proof.
  induction obj as [v Hv|l IH|d IH] using value_nested_ind; intros prefix.
  - destruct v; try discriminate; easy.
  - destruct l as [|x l]; [easy|]. cbn [collect_paths _get_all_paths for_enumerate].
    apply incl_appl. apply incl_cons; [now left|]. apply incl_tl.
    destruct (is_container x); [|easy]. apply (Forall_inv IH).
  - cbn [collect_paths _get_all_paths]. apply flat_map_incl.
    apply List.Forall_forall. intros [k v] Hkv. simpl.
    apply incl_cons; [now left|]. apply incl_tl.
    destruct (is_container v); [|easy].
    rewrite List.Forall_forall in IH. exact (IH _ Hkv _).
Qed.

End CollectedPaths.

(** X14. In a tree whose dicts have distinct keys, all of them strings
    that are not empty and have no point, every path that
    [_get_all_paths] collects is a path that [_path_exists_in_metadata]
    finds. *)
Theorem all_paths_exist (metadata : Py.value) (path : string) :
  plain_keys metadata = true ->
  In path (_get_all_paths metadata "") ->
  _path_exists_in_metadata metadata path = true.
Proof.
  intros Hplain Hin.
  destruct (get_all_paths_walk metadata Hplain "" path Hin) as (q & -> & Hq).
  unfold _path_exists_in_metadata, path_under. simpl. now rewrite Hq.
Qed.

Lemma all_paths_exist_witness :
  _path_exists_in_metadata tifffile_metadata "tifffile.pages.0.tags.ImageWidth" = true.
Proof.
  apply all_paths_exist; [reflexivity|]. simpl. tauto.
Defined.

(** X15. The paths that [analyze_metadata] collects are among those of
    [_get_all_paths], which looks at the first three items of a list
    where [analyze_metadata] looks at the first. *)
Theorem collected_paths_are_all_paths (metadata : Py.value) (path : string) :
  In path (collect_paths metadata "") -> In path (_get_all_paths metadata "").
Proof. apply collect_paths_incl. Qed.

Lemma collected_paths_are_all_paths_witness :
  In "tifffile.pages.0.tags" (_get_all_paths tifffile_metadata "").
Proof.
  apply collected_paths_are_all_paths. simpl. tauto.
Defined.
